(** * SNP-viewer: the Touchstone decoder, the magnitude transform and the
      plot

    A shallow embedding of [snp_viewer/touchstone.py], of
    [snp_viewer/analysis.py] and of the plot of [snp_viewer/gui_main.py],
    the properties of the decoder stated in the specification, and further
    properties of the decoder and of the plot.

    Conventions of the embedding.
    - A Python [str] is a [string]; the model covers ASCII text (bytes
      above 127 have no case, are no digits and no whitespace).
    - A Python [int] is a [Z]; list positions and lengths are [nat].
    - A Python [float] is a [pyfloat]: a real number, or one of the special
      values inf, -inf and nan.  Arithmetic on finite values is exact:
      rounding and overflow of IEEE doubles are outside the model, and zero
      has no sign.
    - An exception is an [Err] of the [result] monad.
    - [read_touchstone] takes the file name ([path.name]) and the list of
      lines of the file ([read_text(...).splitlines()]).
    - An error that numpy or matplotlib raises (an index out of range,
      arrays of different lengths) is the [LibraryError].
    - Of the window, the loaded files, the two controls of the plot, the
      lines of the axes and the log are modelled; the widgets, the dialogs
      and the drawing are not. *)

From Stdlib Require Import ZArith Reals Lra Lia String Ascii List Bool.
From stdpp Require Import base list.
Import ListNotations.

Open Scope string_scope.

(** ** Exceptions *)

Inductive exn : Type :=
| UnrecognizedPortCount
    (* ValueError("Unable to infer port count from filename: ...") *)
| InsufficientData
    (* ValueError("Not enough numeric data found. ...") *)
| LibraryError
    (* an exception raised inside a library call: list.index on a missing
       element, an index or a shape out of range in numpy *).

Inductive result (A : Type) : Type :=
| Ok (a : A)
| Err (e : exn).
Arguments Ok {A} a.
Arguments Err {A} e.

Global Instance result_ret : MRet result := fun A a => Ok a.

Global Instance result_bind : MBind result :=
  fun A B f r =>
    match r with
    | Ok a => f a
    | Err e => Err e
    end.

Definition of_option {A : Type} (o : option A) : result A :=
  match o with
  | Some a => Ok a
  | None => Err LibraryError
  end.

(** ** Python strings *)

Module PyStr.

Local Open Scope Z_scope.

Definition code (c : ascii) : nat := nat_of_ascii c.

(** [str.isspace] on ASCII: tab, LF, VT, FF, CR, FS, GS, RS, US, space. *)
Definition isspace (c : ascii) : bool :=
  let n := code c in
  ((9 <=? n) && (n <=? 13) || (28 <=? n) && (n <=? 32))%nat.

Definition lower_char (c : ascii) : ascii :=
  let n := code c in
  if ((65 <=? n) && (n <=? 90))%nat then ascii_of_nat (n + 32) else c.

Definition upper_char (c : ascii) : ascii :=
  let n := code c in
  if ((97 <=? n) && (n <=? 122))%nat then ascii_of_nat (n - 32) else c.

Fixpoint map_chars (f : ascii -> ascii) (s : string) : string :=
  match s with
  | EmptyString => EmptyString
  | String c s' => String (f c) (map_chars f s')
  end.

(** [s.lower()], [s.upper()] *)
Definition lower : string -> string := map_chars lower_char.
Definition upper : string -> string := map_chars upper_char.

(** [s.replace(old, new)] for one-character [old] and [new] *)
Definition replace_char (old new : ascii) : string -> string :=
  map_chars (fun c => if Ascii.eqb c old then new else c).

Fixpoint lstrip_by (sp : ascii -> bool) (s : string) : string :=
  match s with
  | String c s' => if sp c then lstrip_by sp s' else s
  | EmptyString => EmptyString
  end.

Fixpoint rstrip_by (sp : ascii -> bool) (s : string) : string :=
  match s with
  | EmptyString => EmptyString
  | String c s' =>
      match rstrip_by sp s' with
      | EmptyString => if sp c then EmptyString else String c EmptyString
      | r => String c r
      end
  end.

(** [s.strip()] *)
Definition strip (s : string) : string :=
  rstrip_by isspace (lstrip_by isspace s).

(** [s.startswith(p)] *)
Definition startswith (s p : string) : bool := String.prefix p s.

(** [s.endswith(p)] *)
Fixpoint endswith (s p : string) : bool :=
  String.eqb s p
  || match s with
     | EmptyString => false
     | String _ s' => endswith s' p
     end.

(** [sub in s] *)
Fixpoint contains (sub s : string) : bool :=
  String.prefix sub s
  || match s with
     | EmptyString => false
     | String _ s' => contains sub s'
     end.

(** [s.split(sep)] for a non-empty [sep]: cut at every occurrence of
    [sep], found from left to right, occurrences not overlapping.  [skip]
    counts the characters of a separator just matched that are still to be
    passed over. *)
Fixpoint split_go (sep : string) (skip : nat) (s : string) : list string :=
  match s with
  | EmptyString => [EmptyString]
  | String c s' =>
      match skip with
      | S k => split_go sep k s'
      | O =>
          if String.prefix sep s
          then EmptyString :: split_go sep (String.length sep - 1) s'
          else match split_go sep 0 s' with
               | piece :: rest => String c piece :: rest
               | [] => [String c EmptyString]
               end
      end
  end.

Definition split (s sep : string) : list string := split_go sep 0 s.

(** [s.split()]: the maximal runs of non-whitespace characters.  [cur] is
    the word being read, if any. *)
Fixpoint split_ws_go (cur : option string) (s : string) : list string :=
  match s with
  | EmptyString =>
      match cur with
      | Some w => [w]
      | None => []
      end
  | String c s' =>
      if isspace c
      then match cur with
           | Some w => w :: split_ws_go None s'
           | None => split_ws_go None s'
           end
      else split_ws_go
             (Some (match cur with
                    | Some w => w ++ String c EmptyString
                    | None => String c EmptyString
                    end)) s'
  end.

Definition split_ws (s : string) : list string := split_ws_go None s.

(** [s[:-1]] *)
Fixpoint drop_last (s : string) : string :=
  match s with
  | EmptyString => EmptyString
  | String c EmptyString => EmptyString
  | String c s' => String c (drop_last s')
  end.

(** [x in l] and [l.index(x)] on a list of strings *)
Definition list_in (x : string) (l : list string) : bool :=
  existsb (String.eqb x) l.

Fixpoint list_index (x : string) (l : list string) : option nat :=
  match l with
  | [] => None
  | y :: l' => if String.eqb y x then Some O else S <$> list_index x l'
  end.

(** *** Number literals *)

Definition digit_of (c : ascii) : option Z :=
  let n := code c in
  if ((48 <=? n) && (n <=? 57))%nat then Some (Z.of_nat (n - 48)) else None.

(** A run of decimal digits in which single underscores may separate
    digits: returns the value and the number of digits. *)
Fixpoint digitpart_go (after_digit : bool) (acc : Z) (n : nat) (s : string)
  : option (Z * nat) :=
  match s with
  | EmptyString => if after_digit then Some (acc, n) else None
  | String c s' =>
      match digit_of c with
      | Some d => digitpart_go true (10 * acc + d) (S n) s'
      | None =>
          if Ascii.eqb c "_" && after_digit
          then digitpart_go false acc n s'
          else None
      end
  end.

Definition digitpart (s : string) : option (Z * nat) :=
  digitpart_go false 0 0%nat s.

Definition unsigned_part (s : string) : option Z :=
  match digitpart s with
  | Some (v, _) => Some v
  | None => None
  end.

(** The whitespace that [int] and [float] pass over at both ends of an
    ASCII string: tab, LF, VT, FF, CR and space ([FS] to [US] are not). *)
Definition isspace_num (c : ascii) : bool :=
  let n := code c in
  ((9 <=? n) && (n <=? 13) || (n =? 32))%nat.

Definition strip_num (s : string) : string :=
  rstrip_by isspace_num (lstrip_by isspace_num s).

(** An optional sign: [true] for a minus. *)
Definition sign (s : string) : bool * string :=
  match s with
  | String "-" s' => (true, s')
  | String "+" s' => (false, s')
  | _ => (false, s)
  end.

Definition signed (neg : bool) (v : Z) : Z := if neg then - v else v.

(** [int(s)], base ten; [None] stands for the ValueError. *)
Definition py_int (s : string) : option Z :=
  let (neg, body) := sign (strip_num s) in
  match unsigned_part body with
  | Some v => Some (signed neg v)
  | None => None
  end.

(** What a string denotes for [float(s)]: a decimal [m * 10^e], an
    infinity, or nan. *)
Inductive literal : Type :=
| LDec (m e : Z)
| LInf (neg : bool)
| LNaN.

(** [i] and [f] are the texts before and after the point; one of them
    may be missing, not both.  Returns the digits read as one integer and
    the number of digits after the point. *)
Definition mantissa (i f : string) : option (Z * nat) :=
  match i, f with
  | EmptyString, EmptyString => None
  | _, EmptyString =>
      match unsigned_part i with
      | Some v => Some (v, O)
      | None => None
      end
  | EmptyString, _ => digitpart f
  | _, _ =>
      match unsigned_part i, digitpart f with
      | Some vi, Some (vf, nf) => Some (vi * 10 ^ Z.of_nat nf + vf, nf)
      | _, _ => None
      end
  end.

Definition number (s : string) : option (Z * nat) :=
  match split s "." with
  | [i] =>
      match unsigned_part i with
      | Some v => Some (v, O)
      | None => None
      end
  | [i; f] => mantissa i f
  | _ => None
  end.

Definition exponent (s : string) : option Z :=
  let (neg, body) := sign s in
  match unsigned_part body with
  | Some v => Some (signed neg v)
  | None => None
  end.

(** [float(s)] as a literal; [None] stands for the ValueError. *)
Definition float_literal (s : string) : option literal :=
  let (neg, body) := sign (strip_num s) in
  let body := lower body in
  if String.eqb body "inf" || String.eqb body "infinity" then Some (LInf neg)
  else if String.eqb body "nan" then Some LNaN
  else
    match split body "e" with
    | [m] =>
        match number m with
        | Some (v, nf) => Some (LDec (signed neg v) (- Z.of_nat nf))
        | None => None
        end
    | [m; x] =>
        match number m, exponent x with
        | Some (v, nf), Some e => Some (LDec (signed neg v) (e - Z.of_nat nf))
        | _, _ => None
        end
    | _ => None
    end.

End PyStr.

(** ** Python floats and numpy arithmetic *)

Module PyFloat.

Local Open Scope R_scope.

Inductive pyfloat : Type :=
| Fin (r : R)
| Inf (neg : bool)
| NaN.

Definition of_literal (l : PyStr.literal) : pyfloat :=
  match l with
  | PyStr.LDec m e => Fin (IZR m * powerRZ 10 e)
  | PyStr.LInf neg => Inf neg
  | PyStr.LNaN => NaN
  end.

(** [float(s)]; [None] stands for the ValueError. *)
Definition py_float (s : string) : option pyfloat :=
  of_literal <$> PyStr.float_literal s.

Definition is_neg (a : R) : bool := if Rlt_dec a 0 then true else false.

Definition fneg (x : pyfloat) : pyfloat :=
  match x with
  | Fin a => Fin (- a)
  | Inf s => Inf (negb s)
  | NaN => NaN
  end.

Definition fadd (x y : pyfloat) : pyfloat :=
  match x, y with
  | NaN, _ | _, NaN => NaN
  | Fin a, Fin b => Fin (a + b)
  | Inf s, Fin _ | Fin _, Inf s => Inf s
  | Inf s, Inf t => if Bool.eqb s t then Inf s else NaN
  end.

Definition fsub (x y : pyfloat) : pyfloat := fadd x (fneg y).

Definition fmul (x y : pyfloat) : pyfloat :=
  match x, y with
  | NaN, _ | _, NaN => NaN
  | Fin a, Fin b => Fin (a * b)
  | Inf s, Fin a | Fin a, Inf s =>
      if Req_dec_T a 0 then NaN else Inf (xorb s (is_neg a))
  | Inf s, Inf t => Inf (xorb s t)
  end.

(** [x / d] for a finite non-zero constant [d] *)
Definition fdiv_const (x : pyfloat) (d : R) : pyfloat :=
  match x with
  | Fin a => Fin (a / d)
  | Inf s => Inf (xorb s (is_neg d))
  | NaN => NaN
  end.

(** [b ** y] for a finite constant base [b > 1] *)
Definition fpow_const (b : R) (y : pyfloat) : pyfloat :=
  match y with
  | Fin a => Fin (Rpower b a)
  | Inf false => Inf false
  | Inf true => Fin 0
  | NaN => NaN
  end.

Definition fcos (x : pyfloat) : pyfloat :=
  match x with
  | Fin a => Fin (cos a)
  | _ => NaN
  end.

Definition fsin (x : pyfloat) : pyfloat :=
  match x with
  | Fin a => Fin (sin a)
  | _ => NaN
  end.

(** [np.deg2rad(x)]: [x * (pi / 180)] *)
Definition deg2rad (x : pyfloat) : pyfloat := fmul x (Fin (PI / 180)).

Definition log10 (a : R) : R := ln a / ln 10.

(** [np.log10(x)] *)
Definition flog10 (x : pyfloat) : pyfloat :=
  match x with
  | Fin a =>
      if Rlt_dec 0 a then Fin (log10 a)
      else if Req_dec_T a 0 then Inf true
      else NaN
  | Inf false => Inf false
  | Inf true => NaN
  | NaN => NaN
  end.

(** [np.maximum(x, y)]: a nan on either side gives nan *)
Definition fmaximum (x y : pyfloat) : pyfloat :=
  match x, y with
  | NaN, _ | _, NaN => NaN
  | Inf false, _ | _, Inf false => Inf false
  | Inf true, z | z, Inf true => z
  | Fin a, Fin b => Fin (Rmax a b)
  end.

(** A complex128 value *)
Record complex : Type := Cx { re : pyfloat; im : pyfloat }.

Definition czero : complex := Cx (Fin 0) (Fin 0).

(** The imaginary unit [1j] *)
Definition one_j : complex := Cx (Fin 0) (Fin 1).

(** A float operand of a complex operation is first made complex. *)
Definition of_real (x : pyfloat) : complex := Cx x (Fin 0).

Definition cadd (z w : complex) : complex :=
  Cx (fadd (re z) (re w)) (fadd (im z) (im w)).

Definition cmul (z w : complex) : complex :=
  Cx (fsub (fmul (re z) (re w)) (fmul (im z) (im w)))
     (fadd (fmul (re z) (im w)) (fmul (im z) (re w))).

(** [np.abs(z)] of a complex [z]: the hypotenuse of its parts *)
Definition cabs (z : complex) : pyfloat :=
  match re z, im z with
  | Fin a, Fin b => Fin (sqrt (a * a + b * b))
  | Inf _, _ | _, Inf _ => Inf false
  | _, _ => NaN
  end.

End PyFloat.

Import PyFloat.

(** ** numpy arrays

    A one-dimensional array is a list, an array of shape [(N, W)] a list of
    [N] rows of length [W], an array of shape [(N, P, P)] a list of [N]
    matrices.  The decoder makes such arrays only with [N >= 1]. *)

Module Np.

(** The consecutive rows of width [w] of a flat list *)
Fixpoint chunks {A : Type} (w n : nat) (l : list A) : list (list A) :=
  match n with
  | O => []
  | S n' => take w l :: chunks w n' (drop w l)
  end.

(** [np.array(l).reshape(n, w)]: an error unless [l] has [n * w]
    elements *)
Definition reshape {A : Type} (l : list A) (n w : nat)
  : result (list (list A)) :=
  if (length l =? n * w)%nat then Ok (chunks w n l) else Err LibraryError.

(** [rows[:, k]]: an error when [k] is not a column of [rows] *)
Definition column {A : Type} (k : nat) (rows : list (list A))
  : result (list A) :=
  of_option (mapM (fun row : list A => row !! k) rows).

(** [rows[:, 1:]] *)
Definition columns_from {A : Type} (k : nat) (rows : list (list A))
  : list (list A) :=
  drop k <$> rows.

(** [np.zeros((n, p, q))] *)
Definition zeros (n p q : nat) : list (list (list complex)) :=
  replicate n (replicate p (replicate q czero)).

(** [m[i, j] = c] in one matrix *)
Definition set_entry {A : Type} (i j : nat) (m : list (list A)) (c : A)
  : option (list (list A)) :=
  match m !! i with
  | Some row =>
      if (j <? length row)%nat then Some (<[i := <[j := c]> row]> m)
      else None
  | None => None
  end.

(** [s[:, i, j] = col]: an error when [col] has not one value for each
    matrix of [s], or when [(i, j)] is not an entry of the matrices *)
Definition assign {A : Type} (s : list (list (list A))) (i j : nat)
                  (col : list A) : result (list (list (list A))) :=
  if (length col =? length s)%nat
  then of_option (mapM (fun mc => set_entry i j mc.1 mc.2) (zip s col))
  else Err LibraryError.

(** An integer index [i] on an axis of [n] elements: a negative index
    counts from the end; [None] stands for the IndexError. *)
Definition axis_index (n : nat) (i : Z) : option nat :=
  if (0 <=? i)%Z && (i <? Z.of_nat n)%Z then Some (Z.to_nat i)
  else if (- Z.of_nat n <=? i)%Z && (i <? 0)%Z
       then Some (Z.to_nat (i + Z.of_nat n))
       else None.

(** [m[i, j]] and [t[:, i, j]] with integer indices *)
Definition item2 {A : Type} (m : list (list A)) (i j : Z) : option A :=
  k ← axis_index (length m) i;
  row ← m !! k;
  l ← axis_index (length row) j;
  row !! l.

Definition entries {A : Type} (t : list (list (list A))) (i j : Z)
  : result (list A) :=
  of_option (mapM (fun m : list (list A) => item2 m i j) t).

(** [np.ones(n)] *)
Definition ones (n : nat) : list pyfloat := replicate n (Fin 1).

(** A sum of products, accumulated from zero in the order of the terms *)
Definition fsum (l : list pyfloat) : pyfloat := foldl fadd (Fin 0) l.

(** The value at position [k] of the full discrete convolution of [a] and
    [v]: the sum of [a[t] * v[k - t]] over the positions [t] of [a] for
    which [k - t] is a position of [v]. *)
Definition conv_at (a v : list pyfloat) (k : nat) : pyfloat :=
  fsum (omap (fun t : nat =>
                if (t <=? k)%nat
                then x ← a !! t; y ← v !! (k - t)%nat; Some (fmul x y)
                else None)
             (seq 0 (length a))).

(** [np.convolve(a, v, mode="same")]: the operands are swapped when [v] is
    the longer one, an empty operand is an error, and the result has the
    length of the longer operand: it is the middle of the full
    convolution, which starts at position [(len(v) - 1) // 2]. *)
Definition convolve_same (a v : list pyfloat) : result (list pyfloat) :=
  let '(a, v) := if (length a <? length v)%nat then (v, a) else (a, v) in
  if (length a =? 0)%nat then Err LibraryError
  else if (length v =? 0)%nat then Err LibraryError
  else Ok ((fun i : nat => conv_at a v (i + (length v - 1) / 2))
           <$> seq 0 (length a)).

End Np.

(** ** Loops *)

(** [for x in l: st = body(st, x)], stopping at the first exception *)
Fixpoint for_each {A S : Type} (l : list A) (body : S -> A -> result S)
                  (st : S) : result S :=
  match l with
  | [] => Ok st
  | x :: l' => st' ← body st x; for_each l' body st'
  end.

(** ** touchstone.py *)

Record TouchstoneData : Type := {
  freq_hz : list pyfloat;                 (* shape: (N,) *)
  s : list (list (list complex));         (* shape: (N, P, P), complex *)
  nports : Z;
  fmt : string;                           (* "RI" / "MA" / "DB" *)
  z0 : pyfloat                            (* reference impedance (ohm) *)
}.

Definition _infer_nports (filename : string) : Z :=
  let lower := PyStr.lower filename in
  if negb (PyStr.contains ".s" lower) || negb (PyStr.endswith lower "p")
  then 0%Z
  else
    (* try: ... except Exception: return 0 *)
    match last (PyStr.split lower ".s") with
    | Some mid =>
        match PyStr.py_int (PyStr.drop_last mid) with
        | Some n => n
        | None => 0%Z
        end
    | None => 0%Z
    end.

Definition _unit_scale (parts : list string) : pyfloat :=
  if PyStr.list_in "HZ" parts then Fin 1
  else if PyStr.list_in "KHZ" parts then Fin 1e3
  else if PyStr.list_in "MHZ" parts then Fin 1e6
  else if PyStr.list_in "GHZ" parts then Fin 1e9
  else Fin 1.

Definition _parse_format (parts : list string) : string :=
  (* for c in ("RI", "MA", "DB"): if c in parts: return c *)
  match List.find (fun c => PyStr.list_in c parts) ["RI"; "MA"; "DB"] with
  | Some c => c
  | None => "RI"
  end.

Definition _parse_z0 (parts : list string) : result pyfloat :=
  if PyStr.list_in "R" parts then
    idx ← of_option (PyStr.list_index "R" parts);
    if (idx + 1 <? length parts)%nat then
      (* try: return float(parts[idx + 1]) except Exception: pass *)
      match parts !! (idx + 1)%nat ≫= py_float with
      | Some v => Ok v
      | None => Ok (Fin 50)
      end
    else Ok (Fin 50)
  else Ok (Fin 50).

(** The body of [_to_complex] at one position of the arrays [a] and [b] *)
Definition to_complex_at (a b : pyfloat) (fmt : string) : complex :=
  let fmt := PyStr.upper fmt in
  if String.eqb fmt "RI" then cadd (of_real a) (cmul one_j (of_real b))
  else if String.eqb fmt "MA" then
    let ang := deg2rad b in
    cmul (of_real a)
         (cadd (of_real (fcos ang)) (cmul one_j (of_real (fsin ang))))
  else if String.eqb fmt "DB" then
    let mag := fpow_const 10 (fdiv_const a 20) in
    let ang := deg2rad b in
    cmul (of_real mag)
         (cadd (of_real (fcos ang)) (cmul one_j (of_real (fsin ang))))
  else cadd (of_real a) (cmul one_j (of_real b)).

(** numpy works element by element; [a] and [b] are two columns of one
    array. *)
Definition _to_complex (a b : list pyfloat) (fmt : string) : list complex :=
  zip_with (fun x y => to_complex_at x y fmt) a b.

(** The variables that the loop over the lines of the file updates *)
Record scan_state : Type := {
  cur_unit_scale : pyfloat;
  cur_fmt : string;
  cur_z0 : pyfloat;
  data_rows : list pyfloat
}.

Definition scan_init : scan_state :=
  {| cur_unit_scale := Fin 1; cur_fmt := "RI"; cur_z0 := Fin 50;
     data_rows := [] |}.

(** The tokens of a header line: [line.upper().split()] *)
Definition header_parts (line : string) : list string :=
  PyStr.split_ws (PyStr.upper line).

(** [for tok in ...: try: data_rows.append(float(tok)) except ValueError:
    pass] *)
Definition append_floats (rows : list pyfloat) (toks : list string)
  : list pyfloat :=
  fold_left (fun (rows : list pyfloat) tok =>
               match py_float tok with
               | Some x => (rows ++ [x])%list
               | None => rows
               end) toks rows.

(** One turn of [for line in text] *)
Definition scan_line (st : scan_state) (line : string) : result scan_state :=
  let line := PyStr.strip line in
  if String.eqb line "" then Ok st
  else if PyStr.startswith line "!" then Ok st
  else if PyStr.startswith line "#" then
    let parts := header_parts line in
    z ← _parse_z0 parts;
    Ok {| cur_unit_scale := _unit_scale parts;
          cur_fmt := _parse_format parts;
          cur_z0 := z;
          data_rows := data_rows st |}
  else
    line ← (if PyStr.contains "!" line
             then first ← of_option (head (PyStr.split line "!"));
                  Ok (PyStr.strip first)
             else Ok line);
    if String.eqb line "" then Ok st
    else
      Ok {| cur_unit_scale := cur_unit_scale st;
            cur_fmt := cur_fmt st;
            cur_z0 := cur_z0 st;
            data_rows :=
              append_floats (data_rows st)
                (PyStr.split_ws (PyStr.replace_char "009" " " line)) |}.

(** The body of the inner loop: [a = vals[:, idx]; b = vals[:, idx + 1];
    idx += 2; s[:, i, j] = _to_complex(a, b, fmt)] *)
Definition fill_entry (vals : list (list pyfloat)) (fmt : string) (i : nat)
    (st : nat * list (list (list complex))) (j : nat)
  : result (nat * list (list (list complex))) :=
  a ← Np.column st.1 vals;
  b ← Np.column (st.1 + 1) vals;
  s' ← Np.assign st.2 i j (_to_complex a b fmt);
  Ok ((st.1 + 2)%nat, s').

(** The body of the outer loop: [for j in range(nports): ...] *)
Definition fill_row (vals : list (list pyfloat)) (fmt : string) (P : nat)
    (st : nat * list (list (list complex))) (i : nat)
  : result (nat * list (list (list complex))) :=
  for_each (seq 0 P) (fill_entry vals fmt i) st.

(** [read_touchstone] after the loop over the lines: the port count is
    checked, the numbers are cut into points and converted. *)
Definition assemble (nports : Z) (unit_scale : pyfloat) (fmt : string)
    (z0 : pyfloat) (data_rows : list pyfloat) : result TouchstoneData :=
  if (nports <=? 0)%Z then Err UnrecognizedPortCount
  else
    let per_point := (1 + (nports * nports) * 2)%Z in
    if (Z.of_nat (length data_rows) <? per_point)%Z then Err InsufficientData
    else
      let total_points := (Z.of_nat (length data_rows) / per_point)%Z in
      rows ← Np.reshape
                (take (Z.to_nat (total_points * per_point)) data_rows)
                (Z.to_nat total_points) (Z.to_nat per_point);
      col0 ← Np.column 0 rows;
      let freq := (fun x => fmul x unit_scale) <$> col0 in
      let vals := Np.columns_from 1 rows in
      let s := Np.zeros (Z.to_nat total_points) (Z.to_nat nports)
                        (Z.to_nat nports) in
      st ← for_each (seq 0 (Z.to_nat nports))
                     (fill_row vals fmt (Z.to_nat nports)) (O, s);
      Ok {| freq_hz := freq; s := st.2; nports := nports; fmt := fmt;
            z0 := z0 |}.

Definition read_touchstone (name : string) (text : list string)
  : result TouchstoneData :=
  let nports := _infer_nports name in
  st ← for_each text scan_line scan_init;
  assemble nports (cur_unit_scale st) (cur_fmt st) (cur_z0 st) (data_rows st).

(** ** analysis.py *)

(** Return magnitude in dB, safe for zeros. *)
Definition sparam_db (s : list complex) : list pyfloat :=
  let mag := cabs <$> s in
  let mag := (fun x => fmaximum x (Fin 1e-20)) <$> mag in
  (fun x => fmul (Fin 20) x) <$> (flog10 <$> mag).

(** ** gui_main.py

    Of the window, the fields that the plot is computed from, and what
    [refresh_plot] leaves on the axes and in the log.  The widgets, the
    dialogs and the drawing itself are not modelled; a line of the axes is
    the pair of arrays that [ax.plot] was called with, and its label. *)

Record LoadedFile : Type := {
  path : string;
  data : TouchstoneData
}.

Record line2d : Type := {
  xdata : list pyfloat;
  ydata : list pyfloat;
  label : string
}.

Record MainWindow : Type := {
  loaded_primary : option LoadedFile;
  loaded_compare : option LoadedFile;
  cmb_plot : string;                      (* cmb_plot.currentText() *)
  chk_smooth : bool;                      (* chk_smooth.isChecked() *)
  ax_title : string;
  ax_lines : list line2d;
  log : list string
}.

Definition _extract_db (data : TouchstoneData) (i j : Z)
  : result (list pyfloat * list pyfloat) :=
  let f_ghz := (fun x => fdiv_const x 1e9) <$> freq_hz data in
  s ← Np.entries (s data) i j;           (* complex *)
  Ok (f_ghz, sparam_db s).

Definition _metric_to_ij (metric : string) (nports : Z) : option (Z * Z) :=
  if PyStr.contains "S21" metric then
    if (2 <=? nports)%Z then Some (1, 0)%Z else None
  else if PyStr.contains "S11" metric then
    if (1 <=? nports)%Z then Some (0, 0)%Z else None
  else if PyStr.contains "S12" metric then
    if (2 <=? nports)%Z then Some (0, 1)%Z else None
  else if PyStr.contains "S22" metric then
    if (2 <=? nports)%Z then Some (1, 1)%Z else None
  else None.

(** [win] is an [int] at every call, so that [int(win)] is [win]. *)
Definition _smooth (y : list pyfloat) (win : Z) : result (list pyfloat) :=
  let win := Z.max 3 win in
  let win := if (win mod 2 =? 0)%Z then (win + 1)%Z else win in
  if (Z.of_nat (length y) <? win)%Z then Ok y
  else
    let kernel :=
      (fun x => fdiv_const x (IZR win)) <$> Np.ones (Z.to_nat win) in
    Np.convolve_same y kernel.

(** [ax.plot(x, y, label=label)]: matplotlib refuses arrays of different
    lengths. *)
Definition ax_plot (x y : list pyfloat) (label : string)
    (lines : list line2d) : result (list line2d) :=
  if (length x =? length y)%nat
  then Ok (lines ++ [{| xdata := x; ydata := y; label := label |}])%list
  else Err LibraryError.

(** [_extract_db] followed by the optional smoothing and by [ax.plot] *)
Definition plot_file (self : MainWindow) (file : LoadedFile) (i j : Z)
    (label : string) (lines : list line2d) : result (list line2d) :=
  xy ← _extract_db (data file) i j;
  y_db ← (if chk_smooth self then _smooth xy.2 7 else Ok xy.2);
  ax_plot xy.1 y_db label lines.

Definition refresh_plot (self : MainWindow) : result MainWindow :=
  (* self.canvas.ax.clear() *)
  let cleared (title : string) (lines : list line2d) (log : list string) :=
    {| loaded_primary := loaded_primary self;
       loaded_compare := loaded_compare self;
       cmb_plot := cmb_plot self;
       chk_smooth := chk_smooth self;
       ax_title := title;
       ax_lines := lines;
       log := log |} in
  match loaded_primary self with
  | None => Ok (cleared "Load a .sNp file to plot" [] (log self))
  | Some primary =>
      let metric := cmb_plot self in
      match _metric_to_ij metric (nports (data primary)) with
      | None =>
          Ok (cleared "" []
                (log self
                 ++ [("Unsupported metric selection: " ++ metric)%string])%list)
      | Some (i, j) =>                     (* 0-based *)
          lines ← plot_file self primary i j ("Primary " ++ metric) [];
          (* Compare overlay if present *)
          lines ← match loaded_compare self with
                   | Some compare =>
                       plot_file self compare i j ("Compare " ++ metric) lines
                   | None => Ok lines
                   end;
          Ok (cleared "" lines (log self))
      end
  end.

(** ** Vocabulary of the statements *)

(** An array of shape [(N, P, Q)] *)
Definition shape3 {A : Type} (N P Q : nat) (t : list (list (list A))) : Prop :=
  length t = N /\
  Forall (fun m => length m = P /\ Forall (fun row => length row = Q) m) t.

(** [m[i, j]] and [t[n, i, j]] *)
Definition entry2 {A : Type} (m : list (list A)) (i j : nat) : option A :=
  m !! i ≫= (fun row : list A => row !! j).

Definition entry {A : Type} (t : list (list (list A))) (n i j : nat)
  : option A :=
  t !! n ≫= (fun m : list (list A) => entry2 m i j).

(** What the loops store at [s[n, i, j]]: the pair of values at the
    columns [2 (i p + j)] and [2 (i p + j) + 1] of row [n], converted. *)
Definition converted (vals : list (list pyfloat)) (enc : string) (p : nat)
    (n i j : nat) : option complex :=
  row ← vals !! n;
  a ← row !! (2 * (i * p + j));
  b ← row !! (2 * (i * p + j) + 1);
  Some (to_complex_at a b enc).

(** The state of the loops when [k] entries, in row-major order, have
    been stored: [idx] has advanced by two for each of them, the array has
    kept its shape, the entries before position [k] are converted and the
    others are still zero. *)
Definition filled (vals : list (list pyfloat)) (enc : string) (N p : nat)
    (k : nat) (st : nat * list (list (list complex))) : Prop :=
  st.1 = 2 * k /\
  shape3 N p p st.2 /\
  (forall n i j, n < N -> i < p -> j < p -> i * p + j < k ->
                 entry st.2 n i j = converted vals enc p n i j) /\
  (forall n i j, n < N -> i < p -> j < p -> k <= i * p + j ->
                 entry st.2 n i j = Some czero).

(** A line that the loop takes as a header line *)
Definition is_header (line : string) : bool :=
  PyStr.startswith (PyStr.strip line) "#".

(** The header line that governs a file: the last one *)
Fixpoint governing_header (text : list string) : option string :=
  match text with
  | [] => None
  | line :: rest =>
      match governing_header rest with
      | Some h => Some h
      | None => if is_header line then Some line else None
      end
  end.

(** Its tokens; none when the file has no header line *)
Definition governing_parts (text : list string) : list string :=
  match governing_header text with
  | Some h => header_parts (PyStr.strip h)
  | None => []
  end.

(** The unit scale of a header, by keyword, [HZ] before [KHZ] before [MHZ]
    before [GHZ] *)
Definition unit_scale_of (parts : list string) : R :=
  if in_dec string_dec "HZ" parts then 1
  else if in_dec string_dec "KHZ" parts then 1e3
  else if in_dec string_dec "MHZ" parts then 1e6
  else if in_dec string_dec "GHZ" parts then 1e9
  else 1.

(** A decimal digit, a run of decimal digits and its value *)
Definition is_digit (c : ascii) : bool :=
  match PyStr.digit_of c with
  | Some _ => true
  | None => false
  end.

Fixpoint all_digits (ds : string) : bool :=
  match ds with
  | EmptyString => true
  | String c ds' => is_digit c && all_digits ds'
  end.

Fixpoint digits_value_from (acc : Z) (ds : string) : Z :=
  match ds with
  | EmptyString => acc
  | String c ds' =>
      digits_value_from
        (10 * acc + match PyStr.digit_of c with
                    | Some d => d
                    | None => 0
                    end)%Z ds'
  end.

Definition digits_value (ds : string) : Z := digits_value_from 0 ds.

(** The file-name pattern of the specification, case-insensitive:
    "contains [.s], ends in [p], with one or more decimal digits between
    them".  [matches_snp filename ds] says that [filename] matches with the
    digits [ds]; [digits_value ds] is then the embedded digit value. *)
Definition matches_snp (filename ds : string) : Prop :=
  ds <> "" /\ all_digits ds = true /\
  exists pre, PyStr.lower filename = pre ++ ".s" ++ ds ++ "p".

(** What [_infer_nports] returns for the text between the last [.s] and the
    final [p]: its value for [int], 0 when [int] raises *)
Definition int_or_zero (o : option Z) : Z :=
  match o with
  | Some n => n
  | None => 0%Z
  end.

(** Evaluation of the decoder on a concrete file: everything is computed
    but the operations on real numbers. *)
Ltac run_decoder :=
  cbv -[IZR Rplus Rmult Rminus Ropp Rinv Rdiv powerRZ Rpower cos sin PI sqrt
        ln Rmax Rlt_dec Req_dec_T].

(** A line that the loop takes as a data line (a blank line counts as a
    data line without tokens): its first non-blank character is neither
    [#] nor [!]. *)
Definition is_data (line : string) : bool :=
  negb (PyStr.startswith (PyStr.strip line) "#")
  && negb (PyStr.startswith (PyStr.strip line) "!").

(** The state of the loop after [toks] were offered to [float] *)
Definition with_tokens (st : scan_state) (toks : list string) : scan_state :=
  {| cur_unit_scale := cur_unit_scale st;
     cur_fmt := cur_fmt st;
     cur_z0 := cur_z0 st;
     data_rows := append_floats (data_rows st) toks |}.

(** The window that [_smooth] works with: at least 3, and odd *)
Definition smooth_window (win : Z) : Z :=
  let win := Z.max 3 win in
  if (win mod 2 =? 0)%Z then (win + 1)%Z else win.

(** The sum of a list of real numbers *)
Definition Rsum (l : list R) : R := foldr Rplus 0%R l.

(** The values of [ys] at the positions [i - h], ..., [i + h] that exist:
    the part of the window around [i] that lies within the series *)
Definition window (ys : list R) (i h : nat) : list R :=
  take (i + h + 1 - (i - h)) (drop (i - h) ys).

(** A dataset that a decode has returned *)
Definition decoded (d : TouchstoneData) : Prop :=
  exists name text, read_touchstone name text = Ok d.

(** The words that a line offers to [float]: none for a blank line, for a
    comment and for a header line, and otherwise the words of the line up
    to its first [!] *)
Definition line_tokens (line : string) : list string :=
  let line := PyStr.strip line in
  if String.eqb line "" then []
  else if PyStr.startswith line "!" then []
  else if PyStr.startswith line "#" then []
  else
    let line :=
      if PyStr.contains "!" line
      then match head (PyStr.split line "!") with
           | Some first => PyStr.strip first
           | None => line
           end
      else line in
    PyStr.split_ws (PyStr.replace_char "009" " " line).

(** * Properties *)

(** ** Python strings and numbers on examples *)

Example lower_ex : PyStr.lower "FOO.S16P" = "foo.s16p".
Proof. reflexivity. Qed.

Example strip_ex : PyStr.strip "  # GHZ S RI R 50  " = "# GHZ S RI R 50".
Proof. reflexivity. Qed.

Example split_ex : PyStr.split "a.s2p.s3p" ".s" = ["a"; "2p"; "3p"].
Proof. reflexivity. Qed.

Example split_ws_ex :
  PyStr.split_ws " 1.0  2e3 x " = ["1.0"; "2e3"; "x"].
Proof. reflexivity. Qed.

Example digits_value_ex : digits_value "016" = 16%Z.
Proof. reflexivity. Qed.

Example py_int_ex :
  map PyStr.py_int ["16"; "+4"; " 4"; "1_6"; "-2"; ""; "4x"; "1__6"; "_1"]
  = [Some 16; Some 4; Some 4; Some 16; Some (-2); None; None; None; None]%Z.
Proof. reflexivity. Qed.

Example float_literal_ex :
  map PyStr.float_literal
      ["1000"; "-5"; "0.25"; "1.5e-3"; ".5"; "5."; "1E3"; "-INF"; "nan";
       "."; "e5"; "1e"; "abc"; "1.2.3"; "0x10"]
  = [Some (PyStr.LDec 1000 0); Some (PyStr.LDec (-5) 0);
     Some (PyStr.LDec 25 (-2)); Some (PyStr.LDec 15 (-4));
     Some (PyStr.LDec 5 (-1)); Some (PyStr.LDec 5 0);
     Some (PyStr.LDec 1 3); Some (PyStr.LInf true); Some PyStr.LNaN;
     None; None; None; None; None; None]%Z.
Proof. reflexivity. Qed.

(** ** The result monad *)

Lemma bind_Ok {A B : Type} (r : result A) (f : A -> result B) (b : B) :
  r ≫= f = Ok b <-> exists a, r = Ok a /\ f a = Ok b.
Proof.
  destruct r as [a|e]; simpl; split.
  - intros H. exists a. auto.
  - intros (a' & Ha & Hf). congruence.
  - discriminate.
  - intros (a' & Ha & _). discriminate.
Qed.

(** A loop over [range(a, a + len)] that keeps an invariant indexed by the
    loop counter ends without an exception, in a state that satisfies the
    invariant at the end of the range. *)
Lemma for_each_seq_inv {S : Type} (body : S -> nat -> result S)
      (I : nat -> S -> Prop) (len a : nat) (st : S) :
  I a st ->
  (forall k st0, a <= k < a + len -> I k st0 ->
                 exists st1, body st0 k = Ok st1 /\ I (Datatypes.S k) st1) ->
  exists st', for_each (seq a len) body st = Ok st' /\ I (a + len) st'.
Proof.
  revert a st. induction len as [|len IH]; intros a st Ha Hstep; simpl.
  - exists st. rewrite Nat.add_0_r. auto.
  - destruct (Hstep a st) as (st1 & Hb & H1); [lia | assumption |].
    rewrite Hb. simpl.
    destruct (IH (Datatypes.S a) st1) as (st' & Hf & H'); [assumption | |].
    + intros k st0 Hk. apply Hstep. lia.
    + exists st'. split; [assumption |].
      replace (a + Datatypes.S len) with (Datatypes.S a + len) by lia.
      assumption.
Qed.

(** ** Arrays *)

Section Arrays.

Context {A : Type}.
Implicit Types (l col : list A) (rows m : list (list A))
         (t : list (list (list A))).

Lemma length_chunks w n l : length (Np.chunks w n l) = n.
Proof. revert l. induction n; intros; simpl; auto. Qed.

Lemma lookup_chunks w n l i :
  i < n -> Np.chunks w n l !! i = Some (take w (drop (i * w) l)).
Proof.
  revert l i. induction n as [|n IH]; intros l i Hi; [lia |].
  destruct i as [|i]; simpl.
  - reflexivity.
  - rewrite IH by lia. rewrite drop_drop. reflexivity.
Qed.

(** Row [n] of a reshaped list holds the elements [n * w], ...,
    [n * w + w - 1] of the list. *)
Lemma reshape_rows l n w :
  length l = n * w ->
  exists rows,
    Np.reshape l n w = Ok rows /\
    length rows = n /\
    Forall (fun row => length row = w) rows /\
    (forall i k row, rows !! i = Some row -> k < w ->
                     row !! k = l !! (i * w + k)).
Proof.
  intros Hl. exists (Np.chunks w n l). unfold Np.reshape.
  rewrite Hl, Nat.eqb_refl. split; [reflexivity |].
  split; [apply length_chunks |]. split.
  - apply Forall_lookup_2. intros i row Hi.
    assert (i < n) as Hlt.
    { apply lookup_lt_Some in Hi. rewrite length_chunks in Hi. lia. }
    rewrite lookup_chunks in Hi by lia. injection Hi as <-.
    rewrite length_take, length_drop. nia.
  - intros i k row Hi Hk.
    assert (i < n) as Hlt.
    { apply lookup_lt_Some in Hi. rewrite length_chunks in Hi. lia. }
    rewrite lookup_chunks in Hi by lia. injection Hi as <-.
    rewrite lookup_take_lt by lia. apply lookup_drop.
Qed.

Lemma column_rows k w rows :
  Forall (fun row => length row = w) rows -> k < w ->
  exists col,
    Np.column k rows = Ok col /\
    length col = length rows /\
    (forall n row, rows !! n = Some row -> col !! n = row !! k).
Proof.
  intros Hw Hk. unfold Np.column.
  destruct (mapM (fun row : list A => row !! k) rows) as [col|] eqn:Hm.
  - exists col. split; [reflexivity |].
    apply mapM_Some_1 in Hm. split.
    + symmetry. eapply Forall2_length, Hm.
    + intros n row Hn.
      destruct (Forall2_lookup_l _ _ _ _ _ Hm Hn) as (y & Hy & Hrow).
      congruence.
  - apply mapM_None_1 in Hm. apply Exists_exists in Hm.
    destruct Hm as (row & Hin & Hnone).
    rewrite Forall_forall in Hw. specialize (Hw _ Hin).
    apply lookup_ge_None in Hnone. lia.
Qed.

Lemma set_entry_spec P Q i j m c :
  length m = P -> Forall (fun row => length row = Q) m ->
  i < P -> j < Q ->
  exists m' : list (list A),
    Np.set_entry i j m c = Some m' /\
    length m' = P /\ Forall (fun row => length row = Q) m' /\
    entry2 m' i j = Some c /\
    (forall i' j', (i', j') <> (i, j) -> entry2 m' i' j' = entry2 m i' j').
Proof.
  intros HP HQ Hi Hj. unfold Np.set_entry, entry2.
  destruct (m !! i) as [row|] eqn:Hrow.
  2: { apply lookup_ge_None in Hrow. lia. }
  assert (length row = Q) as Hlen.
  { rewrite Forall_lookup in HQ. eauto. }
  assert ((j <? length row)%nat = true) as -> by (apply Nat.ltb_lt; lia).
  eexists. split; [reflexivity |].
  split; [by rewrite length_insert |]. split; [| split].
  - apply Forall_insert; [assumption |]. by rewrite length_insert.
  - rewrite list_lookup_insert_eq by lia. simpl.
    apply list_lookup_insert_eq. lia.
  - intros i' j' Hne. destruct (decide (i' = i)) as [->|Hi'].
    + rewrite list_lookup_insert_eq by lia. rewrite Hrow. simpl.
      apply list_lookup_insert_ne. congruence.
    + by rewrite list_lookup_insert_ne.
Qed.

Lemma assign_spec N P Q t i j col :
  shape3 N P Q t -> length col = N -> i < P -> j < Q ->
  exists t' : list (list (list A)),
    Np.assign t i j col = Ok t' /\
    shape3 N P Q t' /\
    (forall n, n < N -> entry t' n i j = col !! n) /\
    (forall n i' j', (i', j') <> (i, j) ->
                     entry t' n i' j' = entry t n i' j').
Proof.
  intros [HN Hsh] Hcol Hi Hj. unfold Np.assign.
  assert ((length col =? length t)%nat = true) as ->
      by (apply Nat.eqb_eq; lia).
  destruct (mapM (fun mc => Np.set_entry i j mc.1 mc.2) (zip t col))
    as [t'|] eqn:Hm.
  2: { apply mapM_None_1 in Hm. apply Exists_exists in Hm.
       destruct Hm as ([m c] & Hin & Hnone). simpl in Hnone.
       apply list_elem_of_lookup in Hin as [n Hn].
       apply lookup_zip_with_Some in Hn as (m0 & c0 & Heq & Hm0 & _).
       injection Heq as <- <-.
       rewrite Forall_lookup in Hsh. destruct (Hsh _ _ Hm0) as [HP HQ].
       destruct (set_entry_spec P Q i j m c HP HQ Hi Hj) as (m' & Hs & _).
       congruence. }
  exists t'. split; [reflexivity |].
  apply mapM_Some_1 in Hm.
  assert (length t' = N) as HN'.
  { apply Forall2_length in Hm. rewrite length_zip_with in Hm. lia. }
  assert (forall n m', t' !! n = Some m' ->
            exists m c, t !! n = Some m /\ col !! n = Some c /\
                        Np.set_entry i j m c = Some m') as Hrel.
  { intros n m' Hn.
    destruct (Forall2_lookup_r _ _ _ _ _ Hm Hn) as ([m c] & Hz & Hs).
    apply lookup_zip_with_Some in Hz as (m0 & c0 & Heq & Hm0 & Hc0).
    injection Heq as <- <-. eauto. }
  split; [split; [assumption |] | split].
  - apply Forall_lookup_2. intros n m' Hn.
    destruct (Hrel _ _ Hn) as (m & c & Hm0 & Hc & Hs).
    rewrite Forall_lookup in Hsh. destruct (Hsh _ _ Hm0) as [HP HQ].
    destruct (set_entry_spec P Q i j m c HP HQ Hi Hj)
      as (m'' & Hs' & HP' & HQ' & _).
    rewrite Hs in Hs'. injection Hs' as <-. auto.
  - intros n Hn. unfold entry.
    destruct (t' !! n) as [m'|] eqn:Hn'.
    2: { apply lookup_ge_None in Hn'. lia. }
    destruct (Hrel _ _ Hn') as (m & c & Hm0 & Hc & Hs).
    rewrite Forall_lookup in Hsh. destruct (Hsh _ _ Hm0) as [HP HQ].
    destruct (set_entry_spec P Q i j m c HP HQ Hi Hj)
      as (m'' & Hs' & _ & _ & Hget & _).
    rewrite Hs in Hs'. injection Hs' as <-. simpl. congruence.
  - intros n i' j' Hne. unfold entry.
    destruct (t' !! n) as [m'|] eqn:Hn'.
    + destruct (Hrel _ _ Hn') as (m & c & Hm0 & Hc & Hs).
      rewrite Forall_lookup in Hsh. destruct (Hsh _ _ Hm0) as [HP HQ].
      destruct (set_entry_spec P Q i j m c HP HQ Hi Hj)
        as (m'' & Hs' & _ & _ & _ & Hother).
      rewrite Hs in Hs'. injection Hs' as <-.
      rewrite Hm0. simpl. by apply Hother.
    + apply lookup_ge_None in Hn'.
      assert (t !! n = None) as -> by (apply lookup_ge_None; lia).
      reflexivity.
Qed.

End Arrays.

(** ** The conversion loops of [read_touchstone] *)

(** Positions of a [p] by [p] matrix in row-major order *)
Lemma row_major_lt (p i j : nat) : i < p -> j < p -> i * p + j < p * p.
Proof. nia. Qed.

Lemma row_major_inj (p i j i' j' : nat) :
  j < p -> j' < p -> i * p + j = i' * p + j' -> (i, j) = (i', j').
Proof.
  intros Hj Hj' Heq.
  assert (i = i') as -> by nia.
  f_equal. lia.
Qed.

Section Fill.

Variables (vals : list (list pyfloat)) (enc : string) (N p : nat).
Hypothesis vals_rows : length vals = N.
Hypothesis vals_width : Forall (fun row => length row = 2 * (p * p)) vals.

Lemma zeros_filled : filled vals enc N p 0 (0, Np.zeros N p p).
Proof.
  unfold filled, Np.zeros; simpl. split; [reflexivity |].
  split; [| split].
  - split; [apply length_replicate |].
    apply Forall_lookup_2. intros n m Hm.
    apply lookup_replicate in Hm as [-> _].
    split; [apply length_replicate |].
    apply Forall_lookup_2. intros i row Hrow.
    apply lookup_replicate in Hrow as [-> _]. apply length_replicate.
  - intros; lia.
  - intros n i j Hn Hi Hj _. unfold entry, entry2.
    rewrite lookup_replicate_2 by lia. simpl.
    rewrite lookup_replicate_2 by lia. simpl.
    by rewrite lookup_replicate_2 by lia.
Qed.

Lemma fill_entry_filled i j st :
  i < p -> j < p -> filled vals enc N p (i * p + j) st ->
  exists st', fill_entry vals enc i st j = Ok st' /\
              filled vals enc N p (S (i * p + j)) st'.
Proof.
  intros Hi Hj (Hidx & Hshape & Hdone & Htodo).
  pose proof (row_major_lt p i j Hi Hj) as Hk.
  unfold fill_entry. rewrite Hidx.
  destruct (column_rows (2 * (i * p + j)) _ vals vals_width)
    as (a & -> & Hla & Ha); [lia |].
  destruct (column_rows (2 * (i * p + j) + 1) _ vals vals_width)
    as (b & -> & Hlb & Hb); [lia |].
  simpl.
  destruct (assign_spec N p p st.2 i j (_to_complex a b enc))
    as (t' & -> & Hshape' & Hnew & Hold); [assumption | | lia | lia |].
  { unfold _to_complex. rewrite length_zip_with. lia. }
  simpl. eexists. split; [reflexivity |].
  split; [simpl; lia |]. split; [assumption |]. simpl. split.
  - intros n i' j' Hn Hi' Hj' Hlt.
    destruct (decide (i' * p + j' = i * p + j)) as [Heq|Hne].
    + apply row_major_inj in Heq; [| lia | lia]. injection Heq as -> ->.
      rewrite Hnew by lia. unfold _to_complex, converted.
      rewrite lookup_zip_with.
      destruct (vals !! n) as [row|] eqn:Hrow.
      2: { apply lookup_ge_None in Hrow. lia. }
      rewrite (Ha _ _ Hrow), (Hb _ _ Hrow). simpl. reflexivity.
    + rewrite Hold by congruence. apply Hdone; lia.
  - intros n i' j' Hn Hi' Hj' Hge.
    rewrite Hold by (intros [= -> ->]; lia). apply Htodo; lia.
Qed.

Lemma fill_row_filled i st :
  i < p -> filled vals enc N p (i * p) st ->
  exists st', fill_row vals enc p st i = Ok st' /\
              filled vals enc N p (S i * p) st'.
Proof.
  intros Hi Hst. unfold fill_row.
  destruct (for_each_seq_inv (fill_entry vals enc i)
              (fun j st0 => filled vals enc N p (i * p + j) st0) p 0 st)
    as (st' & Hrun & Hst').
  - by rewrite Nat.add_0_r.
  - intros j st0 Hj H0.
    destruct (fill_entry_filled i j st0) as (st1 & Hs & H1);
      [lia | lia | assumption |].
    exists st1. split; [assumption |].
    by replace (i * p + S j) with (S (i * p + j)) by lia.
  - exists st'. split; [assumption |].
    by replace (S i * p) with (i * p + (0 + p)) by lia.
Qed.

Lemma fill_all_filled :
  exists st', for_each (seq 0 p) (fill_row vals enc p) (0, Np.zeros N p p)
              = Ok st' /\ filled vals enc N p (p * p) st'.
Proof.
  destruct (for_each_seq_inv (fill_row vals enc p)
              (fun i st0 => filled vals enc N p (i * p) st0) p 0
              (0, Np.zeros N p p))
    as (st' & Hrun & Hst').
  - apply zeros_filled.
  - intros i st0 Hi H0. apply fill_row_filled; [lia | assumption].
  - exists st'. split; [assumption |]. exact Hst'.
Qed.

End Fill.

(** ** The point assembler *)

(** The number of values of one frequency point, as a [nat] *)
Lemma per_point_nat (P : Z) :
  (1 <= P)%Z ->
  (1 + P * P * 2)%Z = Z.of_nat (1 + 2 * (Z.to_nat P * Z.to_nat P)).
Proof. intros HP. nia. Qed.

Lemma row_index_lt (n N w k : nat) : n < N -> k < w -> n * w + k < N * w.
Proof. nia. Qed.

Lemma assemble_points (P : Z) (sc : pyfloat) (enc : string) (z : pyfloat)
      (data : list pyfloat) :
  (1 <= P)%Z ->
  let p := Z.to_nat P in
  let w := 1 + 2 * (p * p) in
  let N := length data / w in
  w <= length data ->
  exists d,
    assemble P sc enc z data = Ok d /\
    nports d = P /\ fmt d = enc /\ z0 d = z /\
    length (freq_hz d) = N /\
    shape3 N p p (s d) /\
    (forall n, n < N ->
       freq_hz d !! n = (fun x => fmul x sc) <$> data !! (n * w)) /\
    (forall n i j, n < N -> i < p -> j < p ->
       entry (s d) n i j =
       (a ← data !! (n * w + 1 + 2 * (i * p + j));
        b ← data !! (n * w + 1 + 2 * (i * p + j) + 1);
        Some (to_complex_at a b enc))).
Proof.
  intros HP p w N Hw.
  assert (0 < w) as Hw0 by (unfold w; lia).
  assert (0 < N) as HN0 by (apply Nat.div_str_pos; lia).
  assert (N * w <= length data) as HNw.
  { rewrite Nat.mul_comm. apply Nat.Div0.mul_div_le. }
  unfold assemble.
  assert ((P <=? 0)%Z = false) as -> by lia.
  rewrite (per_point_nat P HP). fold p. fold w.
  assert ((Z.of_nat (length data) <? Z.of_nat w)%Z = false) as ->.
  { apply Z.ltb_ge. by apply Nat2Z.inj_le. }
  rewrite <- Nat2Z.inj_div, Nat2Z.id. fold N.
  rewrite <- Nat2Z.inj_mul, !Nat2Z.id.
  destruct (reshape_rows (take (N * w) data) N w)
    as (rows & -> & Hrows & Hwidth & Hrow).
  { rewrite length_take. lia. }
  simpl.
  destruct (column_rows 0 w rows Hwidth Hw0) as (col0 & -> & Hl0 & Hcol0).
  simpl.
  assert (length (Np.columns_from 1 rows) = N) as Hvals.
  { unfold Np.columns_from. by rewrite length_fmap. }
  assert (Forall (fun row => length row = 2 * (p * p))
                 (Np.columns_from 1 rows)) as Hvw.
  { unfold Np.columns_from. apply Forall_fmap.
    eapply Forall_impl; [exact Hwidth |].
    intros row Hr. change (length (drop 1 row) = 2 * (p * p)).
    rewrite length_drop, Hr. unfold w. lia. }
  destruct (fill_all_filled (Np.columns_from 1 rows) enc N p Hvals Hvw)
    as (st & -> & Hidx & Hshape & Hdone & _).
  simpl. eexists. split; [reflexivity |]. simpl.
  split; [reflexivity |]. split; [reflexivity |]. split; [reflexivity |].
  split; [rewrite length_fmap; lia |]. split; [assumption |]. split.
  - intros n Hn. rewrite list_lookup_fmap. f_equal.
    destruct (rows !! n) as [row|] eqn:Hr.
    2: { apply lookup_ge_None in Hr. lia. }
    rewrite (Hcol0 _ _ Hr), (Hrow _ _ _ Hr Hw0).
    rewrite lookup_take_lt by (apply row_index_lt; lia). f_equal. lia.
  - intros n i j Hn Hi Hj.
    rewrite Hdone by (try assumption; apply row_major_lt; assumption).
    unfold converted, Np.columns_from. rewrite list_lookup_fmap.
    destruct (rows !! n) as [row|] eqn:Hr.
    2: { apply lookup_ge_None in Hr. lia. }
    cbn [fmap option_fmap option_map mbind option_bind].
    rewrite !lookup_drop.
    pose proof (row_major_lt p i j Hi Hj) as Hk.
    rewrite !(Hrow _ _ _ Hr) by lia.
    rewrite !lookup_take_lt by (apply row_index_lt; lia).
    replace (n * w + (1 + 2 * (i * p + j)))
      with (n * w + 1 + 2 * (i * p + j)) by lia.
    replace (n * w + (1 + (2 * (i * p + j) + 1)))
      with (n * w + 1 + 2 * (i * p + j) + 1) by lia.
    reflexivity.
Qed.

Lemma assemble_no_ports (P : Z) sc enc z data :
  (P <= 0)%Z -> assemble P sc enc z data = Err UnrecognizedPortCount.
Proof.
  intros HP. unfold assemble.
  by assert ((P <=? 0)%Z = true) as -> by lia.
Qed.

Lemma assemble_short (P : Z) sc enc z (data : list pyfloat) :
  (1 <= P)%Z ->
  length data < 1 + 2 * (Z.to_nat P * Z.to_nat P) ->
  assemble P sc enc z data = Err InsufficientData.
Proof.
  intros HP Hlen. unfold assemble.
  assert ((P <=? 0)%Z = false) as -> by lia.
  rewrite (per_point_nat P HP).
  assert ((Z.of_nat (length data)
           <? Z.of_nat (1 + 2 * (Z.to_nat P * Z.to_nat P)))%Z = true) as ->.
  { apply Z.ltb_lt. by apply Nat2Z.inj_lt. }
  reflexivity.
Qed.

(** The values after the last complete point do not reach the result. *)
Lemma assemble_take (P : Z) sc enc z (data : list pyfloat) :
  (1 <= P)%Z ->
  let w := 1 + 2 * (Z.to_nat P * Z.to_nat P) in
  w <= length data ->
  assemble P sc enc z (take (length data / w * w) data)
  = assemble P sc enc z data.
Proof.
  intros HP w Hw.
  assert (0 < w) as Hw0 by (unfold w; lia).
  assert (0 < length data / w) as HN0 by (apply Nat.div_str_pos; lia).
  assert (length data / w * w <= length data) as HNw.
  { rewrite Nat.mul_comm. apply Nat.Div0.mul_div_le. }
  unfold assemble.
  assert ((P <=? 0)%Z = false) as -> by lia.
  rewrite (per_point_nat P HP). fold w.
  rewrite length_take_le by assumption.
  assert ((Z.of_nat (length data) <? Z.of_nat w)%Z = false) as ->.
  { apply Z.ltb_ge. by apply Nat2Z.inj_le. }
  assert ((Z.of_nat (length data / w * w) <? Z.of_nat w)%Z = false) as ->.
  { apply Z.ltb_ge. apply Nat2Z.inj_le. nia. }
  rewrite <- !Nat2Z.inj_div, !Nat2Z.id.
  rewrite Nat.div_mul by lia.
  rewrite <- !Nat2Z.inj_mul, !Nat2Z.id.
  rewrite take_take, Nat.min_id. reflexivity.
Qed.

(** ** Lists of tokens *)

Lemma list_in_iff (x : string) (l : list string) :
  PyStr.list_in x l = true <-> In x l.
Proof.
  unfold PyStr.list_in. rewrite existsb_exists. split.
  - intros (y & Hin & Heq). apply String.eqb_eq in Heq. by subst.
  - intros Hin. exists x. split; [assumption | apply String.eqb_refl].
Qed.

Lemma list_in_false (x : string) (l : list string) :
  PyStr.list_in x l = false <-> ~ In x l.
Proof.
  rewrite <- list_in_iff. destruct (PyStr.list_in x l); split; intros H;
    try reflexivity; try discriminate; congruence.
Qed.

(** [l.index(x)] is the position of the first [x]. *)
Lemma list_index_first (x : string) (pre rest : list string) :
  ~ In x pre ->
  PyStr.list_index x (pre ++ x :: rest)%list = Some (length pre).
Proof.
  induction pre as [|y pre IH]; intros Hnot; simpl.
  - by rewrite String.eqb_refl.
  - destruct (String.eqb_spec y x) as [->|Hne].
    + exfalso. apply Hnot. by left.
    + rewrite IH; [reflexivity |]. intros Hin. apply Hnot. by right.
Qed.

(** A list that holds [x] splits at the first [x]. *)
Lemma first_occurrence (x : string) (l : list string) :
  In x l -> exists pre rest, l = (pre ++ x :: rest)%list /\ ~ In x pre.
Proof.
  induction l as [|y l IH]; intros Hin; [destruct Hin |].
  destruct (String.eqb_spec y x) as [->|Hne].
  - exists [], l. split; [reflexivity | intros []].
  - destruct Hin as [Heq|Hin]; [congruence |].
    destruct (IH Hin) as (pre & rest & -> & Hnot).
    exists (y :: pre), rest. split; [reflexivity |].
    intros [Heq|Hin']; [congruence | auto].
Qed.

(** ** The loop over the lines never raises *)

Lemma split_go_cons (sep : string) (c : ascii) (s : string) :
  PyStr.split_go sep 0 (String c s)
  = if String.prefix sep (String c s)
    then EmptyString :: PyStr.split_go sep (String.length sep - 1) s
    else match PyStr.split_go sep 0 s with
         | piece :: rest => String c piece :: rest
         | [] => [String c EmptyString]
         end.
Proof. reflexivity. Qed.

Lemma split_go_nonempty (sep : string) (k : nat) (s : string) :
  PyStr.split_go sep k s <> [].
Proof.
  revert k. induction s as [|c s IH]; intros k; [destruct k; discriminate |].
  destruct k as [|k]; [| apply IH].
  rewrite split_go_cons.
  destruct (String.prefix sep (String c s)); [discriminate |].
  destruct (PyStr.split_go sep 0 s); discriminate.
Qed.

Lemma parse_z0_total (parts : list string) :
  exists v, _parse_z0 parts = Ok v.
Proof.
  unfold _parse_z0.
  destruct (PyStr.list_in "R" parts) eqn:Hin; [| eauto].
  apply list_in_iff, first_occurrence in Hin.
  destruct Hin as (pre & rest & -> & Hnot).
  rewrite list_index_first by assumption. simpl.
  destruct (_ <? _)%nat; [| eauto].
  destruct (_ ≫= py_float); eauto.
Qed.

Lemma scan_line_total (st : scan_state) (line : string) :
  exists st', scan_line st line = Ok st'.
Proof.
  unfold scan_line.
  destruct (String.eqb _ ""); [eauto |].
  destruct (PyStr.startswith _ "!"); [eauto |].
  destruct (PyStr.startswith _ "#").
  - destruct (parse_z0_total (header_parts (PyStr.strip line))) as (v & ->).
    simpl. eauto.
  - destruct (PyStr.contains "!" _).
    + destruct (PyStr.split _ "!") as [|first rest] eqn:Hs.
      { exfalso. exact (split_go_nonempty _ _ _ Hs). }
      simpl. destruct (String.eqb _ ""); eauto.
    + simpl. destruct (String.eqb _ ""); eauto.
Qed.

Lemma scan_total (text : list string) (st : scan_state) :
  exists st', for_each text scan_line st = Ok st'.
Proof.
  revert st. induction text as [|line text IH]; intros st; simpl; [eauto |].
  destruct (scan_line_total st line) as (st1 & ->). simpl. apply IH.
Qed.

(** [read_touchstone] is the loop over the lines, which ends in some state
    of its variables, followed by the assembly of the points. *)
Lemma read_touchstone_assemble (name : string) (text : list string) :
  exists st,
    for_each text scan_line scan_init = Ok st /\
    read_touchstone name text
    = assemble (_infer_nports name) (cur_unit_scale st) (cur_fmt st)
               (cur_z0 st) (data_rows st).
Proof.
  destruct (scan_total text scan_init) as (st & Hst).
  exists st. split; [assumption |].
  unfold read_touchstone. by rewrite Hst.
Qed.

(** ** C1: the point assembler *)

(** C1.  For a port count [P >= 1] and a flat numeric token stream [data] of
    length [T], with [record_width = 1 + 2 P^2]: the assembly fails with
    [InsufficientData] when [T < record_width]; otherwise it returns
    [T / record_width] (rounded down) frequency points.  Point [n] is made
    of the tokens [n * record_width], ..., [(n + 1) * record_width - 1], in
    their order: the first is the frequency, scaled, and the pair at
    offsets [1 + 2 (i P + j)] and [2 + 2 (i P + j)] is converted to the
    entry [(i, j)] of the matrix.  The tokens after the last complete point
    are discarded: the result is that of the first
    [(T / record_width) * record_width] tokens alone.  [assemble] is
    [read_touchstone] after its loop over the lines
    ([read_touchstone_assemble]). *)
Theorem point_assembler (P : Z) (sc : pyfloat) (enc : string) (z : pyfloat)
        (data : list pyfloat) :
  (1 <= P)%Z ->
  let p := Z.to_nat P in
  let record_width := 1 + 2 * (p * p) in
  let T := length data in
  (T < record_width -> assemble P sc enc z data = Err InsufficientData) /\
  (record_width <= T ->
   exists d,
     assemble P sc enc z data = Ok d /\
     length (freq_hz d) = T / record_width /\
     length (s d) = T / record_width /\
     (forall n, n < T / record_width ->
        exists f, data !! (n * record_width) = Some f /\
                  freq_hz d !! n = Some (fmul f sc)) /\
     (forall n i j, n < T / record_width -> i < p -> j < p ->
        exists a b,
          data !! (n * record_width + 1 + 2 * (i * p + j)) = Some a /\
          data !! (n * record_width + 2 + 2 * (i * p + j)) = Some b /\
          entry (s d) n i j = Some (to_complex_at a b enc)) /\
     assemble P sc enc z (take (T / record_width * record_width) data)
     = Ok d).
Proof.
  intros HP p w T. split.
  - intros Hlt. by apply assemble_short.
  - intros Hle.
    destruct (assemble_points P sc enc z data HP Hle)
      as (d & Hd & _ & _ & _ & Hf & [Hs _] & Hfreq & Hent).
    fold p w T in Hf, Hs, Hfreq, Hent.
    assert (T / w * w <= T) as HNw.
    { rewrite Nat.mul_comm. apply Nat.Div0.mul_div_le. }
    exists d. split; [assumption |]. split; [assumption |].
    split; [assumption |]. split; [| split].
    + intros n Hn. rewrite (Hfreq n Hn).
      destruct (data !! (n * w)) as [f|] eqn:Hf0.
      * exists f. split; reflexivity.
      * apply lookup_ge_None in Hf0. fold T in Hf0.
        assert (n * w + 0 < T / w * w)
          by (apply row_index_lt; [exact Hn | unfold w; lia]).
        lia.
    + intros n i j Hn Hi Hj. rewrite (Hent n i j Hn Hi Hj).
      pose proof (row_major_lt p i j Hi Hj) as Hk.
      assert (n * w + (2 + 2 * (i * p + j)) < T / w * w) as Hb
          by (apply row_index_lt; [exact Hn | unfold w; lia]).
      destruct (data !! (n * w + 1 + 2 * (i * p + j))) as [a|] eqn:Ha.
      2: { apply lookup_ge_None in Ha. fold T in Ha. lia. }
      replace (n * w + 1 + 2 * (i * p + j) + 1)
        with (n * w + 2 + 2 * (i * p + j)) by lia.
      destruct (data !! (n * w + 2 + 2 * (i * p + j))) as [b|] eqn:Hb'.
      2: { apply lookup_ge_None in Hb'. fold T in Hb'. lia. }
      exists a, b. split; [reflexivity |]. split; reflexivity.
    + rewrite <- Hd. by apply assemble_take.
Qed.

(** The example of the specification: a 2-port stream of two complete
    points of 9 values and 3 more values gives exactly two points. *)
Lemma point_assembler_witness :
  exists d,
    assemble 2 (Fin 1) "RI" (Fin 50) (replicate 21 (Fin 1)) = Ok d /\
    length (freq_hz d) = 2 /\ length (s d) = 2.
Proof.
  destruct (point_assembler 2 (Fin 1) "RI" (Fin 50) (replicate 21 (Fin 1)))
    as [_ H]; [lia |].
  destruct H as (d & Hd & Hf & Hs & _); [simpl; lia |].
  exists d. split; [exact Hd |]. split; [exact Hf | exact Hs].
Defined.

(** ** C4: the invariants of the dataset *)

(** C4.  A decode either fails, with one of the two documented errors and
    no dataset at all (an [Err] holds none), or returns a dataset with as
    many frequencies as matrices, every matrix with [nports] rows of
    [nports] values, where [nports] is the positive port count inferred from
    the file name. *)
Theorem dataset_invariants (name : string) (text : list string) :
  match read_touchstone name text with
  | Ok d =>
      length (freq_hz d) = length (s d) /\
      Forall (fun m : list (list complex) =>
                length m = Z.to_nat (nports d) /\
                Forall (fun row => length row = Z.to_nat (nports d)) m)
             (s d) /\
      nports d = _infer_nports name /\
      (0 < nports d)%Z
  | Err e => e = UnrecognizedPortCount \/ e = InsufficientData
  end.
Proof.
  destruct (read_touchstone_assemble name text) as (st & _ & ->).
  destruct (Z_le_gt_dec (_infer_nports name) 0) as [Hle|Hgt].
  { rewrite assemble_no_ports by assumption. by left. }
  set (P := _infer_nports name) in *.
  destruct (le_lt_dec (1 + 2 * (Z.to_nat P * Z.to_nat P))
                      (length (data_rows st))) as [Hw|Hw].
  - destruct (assemble_points P (cur_unit_scale st) (cur_fmt st) (cur_z0 st)
                (data_rows st)) as (d & -> & HP & _ & _ & Hf & [Hs Hsh] & _);
      [lia | assumption |].
    rewrite HP. split; [lia |]. split; [assumption |]. split; [reflexivity |].
    lia.
  - rewrite assemble_short by (assumption || lia). by right.
Qed.

(** ** The header that governs a file *)

Lemma header_line_not_comment (l : string) :
  PyStr.startswith l "#" = true ->
  String.eqb l "" = false /\ PyStr.startswith l "!" = false.
Proof.
  unfold PyStr.startswith. destruct l as [|c l]; cbn [String.prefix];
    [intros H; discriminate H |].
  destruct (ascii_dec "#" c) as [<-|]; [| intros H; discriminate H].
  intros _. split; reflexivity.
Qed.

Lemma scan_line_header (st : scan_state) (line : string) :
  is_header line = true ->
  let parts := header_parts (PyStr.strip line) in
  exists z,
    _parse_z0 parts = Ok z /\
    scan_line st line
    = Ok {| cur_unit_scale := _unit_scale parts;
            cur_fmt := _parse_format parts;
            cur_z0 := z;
            data_rows := data_rows st |}.
Proof.
  intros Hh parts. unfold is_header in Hh.
  destruct (header_line_not_comment _ Hh) as [He Hc].
  destruct (parse_z0_total parts) as (z & Hz).
  exists z. split; [assumption |].
  unfold scan_line. rewrite He, Hc, Hh. fold parts. by rewrite Hz.
Qed.

Lemma scan_line_other (st st' : scan_state) (line : string) :
  is_header line = false ->
  scan_line st line = Ok st' ->
  cur_unit_scale st' = cur_unit_scale st /\
  cur_fmt st' = cur_fmt st /\
  cur_z0 st' = cur_z0 st.
Proof.
  intros Hh. unfold is_header in Hh. unfold scan_line. rewrite Hh.
  destruct (String.eqb _ ""); [by intros [= <-] |].
  destruct (PyStr.startswith _ "!"); [by intros [= <-] |].
  destruct (PyStr.contains "!" _).
  - destruct (head _); simpl; [| discriminate].
    destruct (String.eqb _ ""); by intros [= <-].
  - simpl. destruct (String.eqb _ ""); by intros [= <-].
Qed.

(** After the loop, the unit, the format and the impedance are those of
    the last header line, or the initial ones when there is none. *)
Lemma scan_header (text : list string) (st0 st : scan_state) :
  for_each text scan_line st0 = Ok st ->
  match governing_header text with
  | Some h =>
      let parts := header_parts (PyStr.strip h) in
      cur_unit_scale st = _unit_scale parts /\
      cur_fmt st = _parse_format parts /\
      _parse_z0 parts = Ok (cur_z0 st)
  | None =>
      cur_unit_scale st = cur_unit_scale st0 /\
      cur_fmt st = cur_fmt st0 /\
      cur_z0 st = cur_z0 st0
  end.
Proof.
  revert st0. induction text as [|line text IH]; intros st0; simpl.
  - by intros [= <-].
  - intros Hrun. apply bind_Ok in Hrun as (st1 & H1 & Hrest).
    specialize (IH _ Hrest).
    destruct (governing_header text) as [h|]; [exact IH |].
    destruct IH as (Hu & Hf & Hz).
    destruct (is_header line) eqn:Hh.
    + destruct (scan_line_header st0 line Hh) as (z & Hpz & Hs).
      rewrite Hs in H1. injection H1 as <-. simpl in *.
      rewrite Hu, Hf, Hz. by rewrite Hpz.
    + destruct (scan_line_other _ _ _ Hh H1) as (Hu1 & Hf1 & Hz1).
      rewrite Hu, Hf, Hz. auto.
Qed.

Lemma unit_scale_spec (parts : list string) :
  _unit_scale parts = Fin (unit_scale_of parts).
Proof.
  unfold _unit_scale, unit_scale_of.
  repeat match goal with
         | |- context [in_dec string_dec ?x parts] =>
             destruct (in_dec string_dec x parts) as [Hin|Hin];
             [apply list_in_iff in Hin | apply list_in_false in Hin];
             rewrite Hin; clear Hin
         end; reflexivity.
Qed.

Lemma scan_governing (text : list string) (st : scan_state) :
  for_each text scan_line scan_init = Ok st ->
  cur_unit_scale st = _unit_scale (governing_parts text) /\
  cur_fmt st = _parse_format (governing_parts text) /\
  _parse_z0 (governing_parts text) = Ok (cur_z0 st).
Proof.
  intros Hrun. apply scan_header in Hrun. unfold governing_parts.
  destruct (governing_header text) as [h|]; [exact Hrun |].
  destruct Hrun as (-> & -> & ->). repeat split.
Qed.

(** ** C6: the unit of the frequencies *)

(** C6, as the code has it.  The decoded frequency of point [n] is its raw
    frequency token times the unit scale of the header that governs the
    file, where the scale is 1 when the header tokens contain [HZ],
    otherwise 10^3 when they contain [KHZ], otherwise 10^6 for [MHZ],
    otherwise 10^9 for [GHZ], and 1 when they contain no unit keyword. *)
Theorem frequency_scaling (name : string) (text : list string)
        (st : scan_state) (d : TouchstoneData) (n : nat) (f : pyfloat) :
  for_each text scan_line scan_init = Ok st ->
  read_touchstone name text = Ok d ->
  let p := Z.to_nat (nports d) in
  data_rows st !! (n * (1 + 2 * (p * p))) = Some f ->
  n < length (freq_hz d) ->
  freq_hz d !! n = Some (fmul f (Fin (unit_scale_of (governing_parts text)))).
Proof.
  intros Hrun Hread p Hf Hn.
  destruct (scan_governing text st Hrun) as (Hsc & _ & _).
  unfold read_touchstone in Hread. rewrite Hrun in Hread. simpl in Hread.
  destruct (Z_le_gt_dec (_infer_nports name) 0) as [Hle|Hgt].
  { rewrite assemble_no_ports in Hread by assumption. discriminate. }
  set (P := _infer_nports name) in *.
  destruct (le_lt_dec (1 + 2 * (Z.to_nat P * Z.to_nat P))
                      (length (data_rows st))) as [Hw|Hw].
  2: { rewrite assemble_short in Hread by (assumption || lia).
       discriminate. }
  destruct (assemble_points P (cur_unit_scale st) (cur_fmt st) (cur_z0 st)
              (data_rows st)) as (d' & Hd & HP & _ & _ & Hlen & _ & Hfreq & _);
    [lia | assumption |].
  rewrite Hd in Hread. injection Hread as ->.
  unfold p in Hf. rewrite HP in Hf.
  rewrite Hfreq by lia. rewrite Hf. simpl.
  by rewrite Hsc, unit_scale_spec.
Qed.

(** The example of the specification: under the header [# KHZ S RI R 50]
    the raw frequency token [1000] is decoded to 1000000 Hz. *)
Lemma frequency_scaling_witness :
  exists d,
    read_touchstone "x.s1p" ["# KHZ S RI R 50"; "1000 0.5 0.25"] = Ok d /\
    freq_hz d !! 0 = Some (Fin 1000000).
Proof.
  eexists. split; [run_decoder; reflexivity |].
  erewrite (frequency_scaling "x.s1p" ["# KHZ S RI R 50"; "1000 0.5 0.25"]);
    [| run_decoder; reflexivity | run_decoder; reflexivity
     | run_decoder; reflexivity | simpl; lia ].
  do 2 f_equal. unfold fmul.
  assert (unit_scale_of (governing_parts ["# KHZ S RI R 50"; "1000 0.5 0.25"])
          = 1e3%R) as -> by reflexivity.
  f_equal. simpl. lra.
Defined.

(** C6 as stated fails when the header holds several unit keywords: the
    tokens of [# HZ KHZ S RI R 50] contain [KHZ], and the scale is 1, not
    10^3; the raw frequency 1000 is decoded to 1000 Hz. *)
Lemma frequency_scaling_counterexample :
  In "KHZ" (header_parts "# HZ KHZ S RI R 50") /\
  _unit_scale (header_parts "# HZ KHZ S RI R 50") = Fin 1 /\
  Fin 1 <> Fin 1e3 /\
  exists d,
    read_touchstone "x.s1p" ["# HZ KHZ S RI R 50"; "1000 0.5 0.25"] = Ok d /\
    freq_hz d = [Fin 1000] /\
    Fin 1000 <> Fin 1000000.
Proof.
  split; [vm_compute; tauto |]. split; [reflexivity |].
  split; [intros [= H]; lra |].
  eexists. split; [run_decoder; reflexivity |]. split.
  - cbn [freq_hz]. do 2 f_equal. simpl. lra.
  - intros [= H]. lra.
Qed.

(** ** C5: the reference impedance *)

Lemma py_float_decimal (tok : string) (m e : Z) :
  PyStr.float_literal tok = Some (PyStr.LDec m e) ->
  py_float tok = Some (Fin (IZR m * powerRZ 10 e)).
Proof. intros H. unfold py_float. by rewrite H. Qed.

(** C5, as the code has it.  [_parse_z0] never fails.  It looks at the
    first token [R] only: when a token follows it that [float] accepts, the
    value of that token is the reference impedance, whatever its sign;
    otherwise ([R] absent, the first [R] the last token, or followed by a
    token that [float] rejects) the reference impedance is 50. *)
Theorem parse_z0_first_R (parts : list string) :
  (exists v, _parse_z0 parts = Ok v) /\
  (~ In "R" parts -> _parse_z0 parts = Ok (Fin 50)) /\
  (forall pre, parts = (pre ++ ["R"])%list -> ~ In "R" pre ->
               _parse_z0 parts = Ok (Fin 50)) /\
  (forall pre tok rest,
      parts = (pre ++ "R" :: tok :: rest)%list -> ~ In "R" pre ->
      (forall v, py_float tok = Some v -> _parse_z0 parts = Ok v) /\
      (py_float tok = None -> _parse_z0 parts = Ok (Fin 50))).
Proof.
  split; [apply parse_z0_total |]. split; [| split].
  - intros Hnot. unfold _parse_z0.
    apply list_in_false in Hnot. by rewrite Hnot.
  - intros pre -> Hnot. unfold _parse_z0.
    assert (PyStr.list_in "R" (pre ++ ["R"]) = true) as ->.
    { apply list_in_iff, in_or_app. right. by left. }
    rewrite list_index_first by assumption. simpl.
    rewrite length_app. simpl.
    by assert ((length pre + 1 <? length pre + 1)%nat = false) as ->
        by (apply Nat.ltb_ge; lia).
  - intros pre tok rest -> Hnot.
    assert (_parse_z0 (pre ++ "R" :: tok :: rest)
            = Ok (match py_float tok with Some v => v | None => Fin 50 end))
      as Hz.
    { unfold _parse_z0.
      assert (PyStr.list_in "R" (pre ++ "R" :: tok :: rest) = true) as ->.
      { apply list_in_iff, in_or_app. right. by left. }
      rewrite list_index_first by assumption. simpl.
      rewrite length_app. simpl.
      assert ((length pre + 1 <? length pre + S (S (length rest)))%nat = true)
        as -> by (apply Nat.ltb_lt; lia).
      rewrite lookup_app_r by lia.
      replace (length pre + 1 - length pre) with 1 by lia. simpl.
      by destruct (py_float tok). }
    split.
    + intros v Hv. by rewrite Hz, Hv.
    + intros Hv. by rewrite Hz, Hv.
Qed.

(** A header [# HZ S RI R 75] sets the reference impedance to 75. *)
Lemma parse_z0_first_R_witness :
  _parse_z0 (header_parts "# HZ S RI R 75") = Ok (Fin 75).
Proof.
  destruct (parse_z0_first_R (header_parts "# HZ S RI R 75"))
    as (_ & _ & _ & H).
  destruct (H ["#"; "HZ"; "S"; "RI"] "75" []) as [Hv _];
    [reflexivity | simpl; intuition discriminate |].
  rewrite (Hv (Fin (75 * powerRZ 10 0)));
    [| apply (py_float_decimal "75" 75 0); reflexivity].
  do 2 f_equal. simpl. lra.
Defined.

(** C5 as stated fails on a follower that is a number but not a positive
    one: under the header [# HZ S RI R -5] the reference impedance is -5,
    not the default 50. *)
Lemma parse_z0_counterexample :
  exists r, _parse_z0 (header_parts "# HZ S RI R -5") = Ok (Fin r) /\
            (r < 0)%R /\ Fin r <> Fin 50.
Proof.
  eexists. split; [run_decoder; reflexivity |]. split.
  - simpl. lra.
  - intros [= H]. simpl in H. lra.
Qed.

(** ** Strings: the last [.s] of a name *)

Lemma append_assoc (a b c : string) : (a ++ b) ++ c = a ++ b ++ c.
Proof. induction a as [|x a IH]; simpl; [reflexivity | by rewrite IH]. Qed.

Lemma prefix_cons (a b : ascii) (s1 s2 : string) :
  String.prefix (String a s1) (String b s2)
  = if ascii_dec a b then String.prefix s1 s2 else false.
Proof. reflexivity. Qed.

Lemma prefix_dot_s (s : string) :
  String.prefix ".s" s = true <-> exists r, s = ".s" ++ r.
Proof.
  split.
  - destruct s as [|c [|c' r]]; cbn [String.prefix].
    + intros H. discriminate H.
    + destruct (ascii_dec "." c); intros H; discriminate H.
    + destruct (ascii_dec "." c) as [<-|]; [| intros H; discriminate H].
      destruct (ascii_dec "s" c') as [<-|]; [| intros H; discriminate H].
      intros _. by exists r.
  - intros (r & ->). destruct r; reflexivity.
Qed.

Lemma contains_cons (sub : string) (c : ascii) (s : string) :
  PyStr.contains sub (String c s)
  = String.prefix sub (String c s) || PyStr.contains sub s.
Proof. reflexivity. Qed.

Lemma contains_app (pre r : string) :
  PyStr.contains ".s" (pre ++ ".s" ++ r) = true.
Proof.
  induction pre as [|c pre IH].
  - change ("" ++ ".s" ++ r) with (String "." (String "s" r)).
    rewrite contains_cons.
    assert (String.prefix ".s" (String "." (String "s" r)) = true) as ->
        by (apply prefix_dot_s; by exists r).
    reflexivity.
  - change (String c pre ++ ".s" ++ r) with (String c (pre ++ ".s" ++ r)).
    rewrite contains_cons, IH. apply orb_true_r.
Qed.

(** Every string that contains [.s] has a last occurrence of it. *)
Lemma last_occurrence (s : string) :
  PyStr.contains ".s" s = true ->
  exists pre tail, s = pre ++ ".s" ++ tail /\ PyStr.contains ".s" tail = false.
Proof.
  induction s as [|c s IH]; [discriminate |].
  rewrite contains_cons. intros H.
  destruct (PyStr.contains ".s" s) eqn:Hs.
  - destruct (IH eq_refl) as (pre & tail & -> & Ht).
    by exists (String c pre), tail.
  - rewrite orb_false_r in H. apply prefix_dot_s in H as (r & Hr).
    exists "", r. split; [assumption |].
    injection Hr as -> ->.
    rewrite contains_cons in Hs. by apply orb_false_elim in Hs as [_ Hs].
Qed.

(** The last piece of [s.split(".s")] is the text after the last [.s]. *)
Lemma split_no_occurrence (s : string) :
  PyStr.contains ".s" s = false -> PyStr.split s ".s" = [s].
Proof.
  unfold PyStr.split. induction s as [|c s IH]; [reflexivity |].
  rewrite contains_cons. intros H. apply orb_false_elim in H as [Hp Hs].
  rewrite split_go_cons, Hp, (IH Hs). reflexivity.
Qed.

Lemma split_pieces (pre tail : string) :
  PyStr.contains ".s" tail = false ->
  exists l,
    l <> [] /\ PyStr.split (pre ++ ".s" ++ tail) ".s" = (l ++ [tail])%list.
Proof.
  intros Ht. remember (String.length pre) as n eqn:Hn.
  revert pre Hn. induction n as [n IH] using lt_wf_ind. intros pre Hn.
  destruct pre as [|c pre].
  - exists [""]. split; [discriminate |].
    change ("" ++ ".s" ++ tail) with (String "." (String "s" tail)).
    unfold PyStr.split. rewrite split_go_cons.
    assert (String.prefix ".s" (String "." (String "s" tail)) = true) as ->
        by (apply prefix_dot_s; by exists tail).
    change (PyStr.split_go ".s" (String.length ".s" - 1) (String "s" tail))
      with (PyStr.split tail ".s").
    by rewrite split_no_occurrence.
  - change (String c pre ++ ".s" ++ tail) with (String c (pre ++ ".s" ++ tail)).
    unfold PyStr.split. rewrite split_go_cons.
    destruct (String.prefix ".s" (String c (pre ++ ".s" ++ tail))) eqn:Hp.
    + apply prefix_dot_s in Hp as (r & Hr). injection Hr as -> Hr.
      destruct pre as [|c' pre]; [discriminate |].
      injection Hr as -> <-.
      destruct (IH (String.length pre)) with (pre := pre)
        as (l & Hl & Hsplit); [simpl in Hn; lia | reflexivity |].
      exists ("" :: l). split; [discriminate |].
      change ("" :: PyStr.split (pre ++ ".s" ++ tail) ".s"
              = (("" :: l) ++ [tail])%list).
      by rewrite Hsplit.
    + destruct (IH (String.length pre)) with (pre := pre)
        as (l & Hl & Hsplit); [simpl in Hn; lia | reflexivity |].
      unfold PyStr.split in Hsplit. rewrite Hsplit.
      destruct l as [|piece l]; [congruence |].
      exists (String c piece :: l). split; [discriminate | reflexivity].
Qed.

Lemma split_last (pre tail : string) :
  PyStr.contains ".s" tail = false ->
  last (PyStr.split (pre ++ ".s" ++ tail) ".s") = Some tail.
Proof.
  intros Ht. destruct (split_pieces pre tail Ht) as (l & _ & ->).
  apply last_snoc.
Qed.

(** ** Strings: a name that ends in [p] *)

Lemma endswith_cons (c : ascii) (s p : string) :
  PyStr.endswith (String c s) p
  = String.eqb (String c s) p || PyStr.endswith s p.
Proof. reflexivity. Qed.

Lemma endswith_app_p (x : string) : PyStr.endswith (x ++ "p") "p" = true.
Proof.
  induction x as [|c x IH]; [reflexivity |].
  change (String c x ++ "p") with (String c (x ++ "p")).
  rewrite endswith_cons, IH. apply orb_true_r.
Qed.

Lemma endswith_p_inv (s : string) :
  PyStr.endswith s "p" = true -> exists body, s = body ++ "p".
Proof.
  induction s as [|c s IH]; [intros H; discriminate H |].
  rewrite endswith_cons. intros H. apply orb_true_elim in H as [H|H].
  - apply String.eqb_eq in H. by exists "".
  - destruct (IH H) as (body & ->). by exists (String c body).
Qed.

Lemma drop_last_cons (c c' : ascii) (s : string) :
  PyStr.drop_last (String c (String c' s))
  = String c (PyStr.drop_last (String c' s)).
Proof. reflexivity. Qed.

Lemma drop_last_app_p (mid : string) : PyStr.drop_last (mid ++ "p") = mid.
Proof.
  induction mid as [|c mid IH]; [reflexivity |].
  destruct mid as [|c' mid]; [reflexivity |].
  change (String c (String c' mid) ++ "p")
    with (String c (String c' (mid ++ "p"))).
  rewrite drop_last_cons. f_equal. exact IH.
Qed.

(** A [.s] cannot end in the final [p]. *)
Lemma contains_snoc_p (mid : string) :
  PyStr.contains ".s" (mid ++ "p") = PyStr.contains ".s" mid.
Proof.
  induction mid as [|c mid IH]; [reflexivity |].
  change (String c mid ++ "p") with (String c (mid ++ "p")).
  rewrite !contains_cons, IH. f_equal.
  destruct mid as [|c' mid].
  - cbn [String.append String.prefix]. by destruct (ascii_dec "." c).
  - change (String c' mid ++ "p") with (String c' (mid ++ "p")).
    cbn [String.prefix]. destruct (ascii_dec "." c); [| reflexivity].
    destruct (ascii_dec "s" c'); [| reflexivity].
    by destruct mid.
Qed.

(** When [y ++ z] ends in [p] and [z] is not empty, [z] ends in [p]. *)
Lemma app_snoc_p_inv (y z x : string) :
  z <> "" -> y ++ z = x ++ "p" -> exists z', z = z' ++ "p".
Proof.
  revert x. induction y as [|c y IH]; intros x Hz Heq.
  - by exists x.
  - destruct x as [|c' x].
    + injection Heq as _ Heq. destruct y; [| discriminate].
      simpl in Heq. congruence.
    + injection Heq as _ Heq. by apply (IH x).
Qed.

(** A name that contains [.s] and ends in [p] is [pre ++ ".s" ++ mid ++ "p"]
    for the text [mid] after its last [.s]. *)
Lemma name_decomposition (lower : string) :
  PyStr.contains ".s" lower = true ->
  PyStr.endswith lower "p" = true ->
  exists pre mid,
    lower = pre ++ ".s" ++ mid ++ "p" /\ PyStr.contains ".s" mid = false.
Proof.
  intros Hc He.
  destruct (last_occurrence lower Hc) as (pre & tail & -> & Ht).
  destruct (endswith_p_inv _ He) as (body & Hb).
  destruct tail as [|c tail].
  - exfalso.
    destruct (app_snoc_p_inv pre ".s" body) as (z' & Hz');
      [discriminate | exact Hb |].
    destruct z' as [|a [|b [|c z']]]; discriminate Hz'.
  - rewrite <- append_assoc in Hb.
    destruct (app_snoc_p_inv (pre ++ ".s") (String c tail) body)
      as (mid & Hmid); [discriminate | assumption |].
    exists pre, mid. rewrite Hmid. split; [reflexivity |].
    rewrite Hmid, contains_snoc_p in Ht. exact Ht.
Qed.

(** ** The port count of a name *)

Lemma infer_nports_decomposed (filename pre mid : string) :
  PyStr.lower filename = pre ++ ".s" ++ mid ++ "p" ->
  PyStr.contains ".s" mid = false ->
  _infer_nports filename = int_or_zero (PyStr.py_int mid).
Proof.
  intros Hl Hm. unfold _infer_nports. rewrite Hl.
  rewrite contains_app.
  assert (pre ++ ".s" ++ mid ++ "p" = (pre ++ ".s" ++ mid) ++ "p") as Hassoc
      by (by rewrite append_assoc).
  rewrite Hassoc at 1. rewrite endswith_app_p. simpl negb. simpl orb.
  rewrite split_last by (by rewrite contains_snoc_p).
  by rewrite drop_last_app_p.
Qed.

(** The names with a port count [n >= 1]: those that end, in lower case, in
    [.s], a text without [.s] that [int] reads as [n], and [p]. *)
Lemma infer_nports_positive (filename : string) (n : Z) :
  (0 < n)%Z ->
  _infer_nports filename = n <->
  exists pre mid,
    PyStr.lower filename = pre ++ ".s" ++ mid ++ "p" /\
    PyStr.contains ".s" mid = false /\
    PyStr.py_int mid = Some n.
Proof.
  intros Hn. split.
  - intros Hp.
    destruct (PyStr.contains ".s" (PyStr.lower filename)) eqn:Hc.
    2: { unfold _infer_nports in Hp. rewrite Hc in Hp. simpl in Hp. lia. }
    destruct (PyStr.endswith (PyStr.lower filename) "p") eqn:He.
    2: { unfold _infer_nports in Hp. rewrite Hc, He in Hp. simpl in Hp. lia. }
    destruct (name_decomposition _ Hc He) as (pre & mid & Hl & Hm).
    exists pre, mid. split; [assumption |]. split; [assumption |].
    rewrite (infer_nports_decomposed _ _ _ Hl Hm) in Hp.
    destruct (PyStr.py_int mid) as [k|]; simpl in Hp; [congruence | lia].
  - intros (pre & mid & Hl & Hm & Hi).
    by rewrite (infer_nports_decomposed _ _ _ Hl Hm), Hi.
Qed.

Lemma read_unrecognized (name : string) (text : list string) :
  (_infer_nports name <= 0)%Z ->
  read_touchstone name text = Err UnrecognizedPortCount.
Proof.
  intros HP. destruct (read_touchstone_assemble name text) as (st & _ & ->).
  by apply assemble_no_ports.
Qed.

Lemma read_recognized (name : string) (text : list string) :
  (0 < _infer_nports name)%Z ->
  read_touchstone name text = Err InsufficientData \/
  exists d, read_touchstone name text = Ok d /\
            nports d = _infer_nports name.
Proof.
  intros HP. destruct (read_touchstone_assemble name text) as (st & _ & ->).
  set (P := _infer_nports name) in *.
  destruct (le_lt_dec (1 + 2 * (Z.to_nat P * Z.to_nat P))
                      (length (data_rows st))) as [Hw|Hw].
  - destruct (assemble_points P (cur_unit_scale st) (cur_fmt st) (cur_z0 st)
                (data_rows st)) as (d & -> & Hd & _); [lia | assumption |].
    right. by exists d.
  - left. apply assemble_short; [lia | assumption].
Qed.

(** *** Plain digits *)

Lemma digit_char (c : ascii) :
  is_digit c = true ->
  PyStr.isspace_num c = false /\ c <> "-"%char /\ c <> "+"%char /\
  c <> "."%char.
Proof.
  destruct c as [[] [] [] [] [] [] [] []]; intros H; try discriminate H;
    repeat split; discriminate.
Qed.

Lemma digitpart_go_digits (ds : string) :
  all_digits ds = true ->
  forall (after : bool) (acc : Z) (n : nat),
    ds <> "" \/ after = true ->
    PyStr.digitpart_go after acc n ds
    = Some (digits_value_from acc ds, n + String.length ds).
Proof.
  induction ds as [|c ds IH]; intros Hd after acc n Hne.
  - destruct Hne as [Hne| ->]; [congruence |]. simpl. by rewrite Nat.add_0_r.
  - simpl in Hd. apply andb_prop in Hd as [Hc Hd].
    unfold is_digit in Hc. simpl.
    destruct (PyStr.digit_of c) as [d|]; [| discriminate Hc].
    rewrite (IH Hd) by (by right). do 2 f_equal. lia.
Qed.

Lemma lstrip_digits (ds : string) :
  all_digits ds = true -> PyStr.lstrip_by PyStr.isspace_num ds = ds.
Proof.
  destruct ds as [|c ds]; [reflexivity |]. simpl.
  intros H. apply andb_prop in H as [Hc _].
  by destruct (digit_char c Hc) as (-> & _).
Qed.

Lemma rstrip_digits (ds : string) :
  all_digits ds = true -> PyStr.rstrip_by PyStr.isspace_num ds = ds.
Proof.
  induction ds as [|c ds IH]; [reflexivity |]. simpl.
  intros H. apply andb_prop in H as [Hc Hd]. rewrite (IH Hd).
  destruct (digit_char c Hc) as (-> & _). by destruct ds.
Qed.

Lemma sign_digits (ds : string) :
  all_digits ds = true -> PyStr.sign ds = (false, ds).
Proof.
  destruct ds as [|c ds]; [reflexivity |]. simpl.
  intros H. apply andb_prop in H as [Hc _].
  destruct c as [[] [] [] [] [] [] [] []]; try discriminate Hc; reflexivity.
Qed.

(** [int] reads a non-empty run of decimal digits as its value. *)
Lemma py_int_digits (ds : string) :
  ds <> "" -> all_digits ds = true ->
  PyStr.py_int ds = Some (digits_value ds).
Proof.
  intros Hne Hd. unfold PyStr.py_int, PyStr.strip_num.
  rewrite lstrip_digits, rstrip_digits, sign_digits by assumption.
  unfold PyStr.unsigned_part, PyStr.digitpart.
  rewrite (digitpart_go_digits ds Hd) by (by left). reflexivity.
Qed.

Lemma contains_digits (ds : string) :
  all_digits ds = true -> PyStr.contains ".s" ds = false.
Proof.
  induction ds as [|c ds IH]; [reflexivity |]. simpl all_digits.
  intros H. apply andb_prop in H as [Hc Hd].
  rewrite contains_cons, (IH Hd). rewrite prefix_cons.
  destruct (ascii_dec "." c) as [<-|]; [discriminate Hc | reflexivity].
Qed.

Lemma matches_snp_count (filename ds : string) :
  matches_snp filename ds -> _infer_nports filename = digits_value ds.
Proof.
  intros (Hne & Hd & pre & Hl).
  rewrite (infer_nports_decomposed _ _ _ Hl (contains_digits ds Hd)).
  by rewrite py_int_digits.
Qed.

(** The digits of a matching name are what precedes the final [p] in the
    last piece of the split. *)
Lemma matches_snp_tail (filename ds : string) :
  matches_snp filename ds ->
  PyStr.drop_last <$> last (PyStr.split (PyStr.lower filename) ".s")
  = Some ds.
Proof.
  intros (Hne & Hd & pre & ->).
  rewrite split_last by (rewrite contains_snoc_p; by apply contains_digits).
  simpl. by rewrite drop_last_app_p.
Qed.

(** ** C10: the last [.s] decides *)

(** C10.  When the lower-cased file name is [pre ++ ".s" ++ mid ++ "p"] and
    [mid] holds no [.s], so that this [.s] is the last one of the name, the
    port count is what [int] makes of [mid] (0 when [int] rejects it),
    whatever [pre] is and however many [.s] it contains: every other name
    with the same text [mid] after its last [.s] has the same port count.
    The name [a.s2p.s3p] gives the port count 3, not 2. *)
Theorem infer_nports_last_suffix (filename pre mid : string) :
  PyStr.lower filename = pre ++ ".s" ++ mid ++ "p" ->
  PyStr.contains ".s" mid = false ->
  _infer_nports filename = int_or_zero (PyStr.py_int mid) /\
  forall filename' pre',
    PyStr.lower filename' = pre' ++ ".s" ++ mid ++ "p" ->
    _infer_nports filename' = _infer_nports filename.
Proof.
  intros Hl Hm.
  pose proof (infer_nports_decomposed filename pre mid Hl Hm) as Hn.
  split; [exact Hn |].
  intros filename' pre' Hl'.
  rewrite Hn. by apply (infer_nports_decomposed filename' pre' mid).
Qed.

Lemma infer_nports_last_suffix_witness :
  PyStr.contains ".s" "a.s2p" = true /\
  _infer_nports "a.s2p.s3p" = 3%Z /\
  _infer_nports "b.s3p" = _infer_nports "a.s2p.s3p".
Proof.
  split; [reflexivity |].
  destruct (infer_nports_last_suffix "a.s2p.s3p" "a.s2p" "3" eq_refl eq_refl)
    as [Hn Hsame].
  split; [exact Hn |]. by apply (Hsame "b.s3p" "b").
Defined.

(** ** C2: the port count of a file name *)

(** C2, as the code has it.  A name that matches the pattern [.s<digits>p]
    with a digit value of at least 1 has that value as its port count, and
    the decoder does not fail with [UnrecognizedPortCount]; with the digit
    value 0 the decoder fails with [UnrecognizedPortCount].  The decoder
    also fails with [UnrecognizedPortCount] for every name whose lower-cased
    form does not contain [.s], or does not end in [p], or has between its
    last [.s] and its final [p] a text that [int] rejects or reads as an
    integer below 1. *)
Theorem infer_nports_pattern (filename : string) (text : list string) :
  (forall ds, matches_snp filename ds ->
     _infer_nports filename = digits_value ds /\
     ((1 <= digits_value ds)%Z ->
        read_touchstone filename text <> Err UnrecognizedPortCount /\
        forall d, read_touchstone filename text = Ok d ->
                  nports d = digits_value ds) /\
     (digits_value ds = 0%Z ->
        read_touchstone filename text = Err UnrecognizedPortCount)) /\
  (PyStr.contains ".s" (PyStr.lower filename) = false \/
   PyStr.endswith (PyStr.lower filename) "p" = false ->
   read_touchstone filename text = Err UnrecognizedPortCount) /\
  (forall pre mid,
     PyStr.lower filename = pre ++ ".s" ++ mid ++ "p" ->
     PyStr.contains ".s" mid = false ->
     (forall n, PyStr.py_int mid = Some n -> (n <= 0)%Z) ->
     read_touchstone filename text = Err UnrecognizedPortCount).
Proof.
  split; [| split].
  - intros ds Hm. pose proof (matches_snp_count _ _ Hm) as Hc.
    split; [assumption |]. split.
    + intros Hv.
      destruct (read_recognized filename text) as [->|(d & -> & Hd)];
        [lia | |].
      * split; [discriminate |]. intros d [=].
      * split; [discriminate |]. intros d' [= <-]. congruence.
    + intros Hv. apply read_unrecognized. lia.
  - intros Hno. apply read_unrecognized. unfold _infer_nports.
    destruct Hno as [-> | ->]; simpl; [lia |].
    rewrite orb_true_r. lia.
  - intros pre mid Hl Hm Hint. apply read_unrecognized.
    rewrite (infer_nports_decomposed _ _ _ Hl Hm).
    destruct (PyStr.py_int mid) as [n|] eqn:Hn; simpl; [by apply Hint | lia].
Qed.

(** [FOO.S16P] has 16 ports. *)
Lemma infer_nports_pattern_witness :
  matches_snp "FOO.S16P" "16" /\ _infer_nports "FOO.S16P" = 16%Z.
Proof.
  assert (matches_snp "FOO.S16P" "16") as Hm.
  { split; [discriminate |]. split; [reflexivity |]. by exists "foo". }
  split; [exact Hm |].
  exact (proj1 (proj1 (infer_nports_pattern "FOO.S16P" []) "16" Hm)).
Defined.

(** C2 as stated fails in both directions.  [a.s0p] matches the pattern,
    and the decoder fails: 0 is no port count.  [a.s+1p] does not match the
    pattern, and the decoder returns a dataset with one port. *)
Lemma infer_nports_counterexample :
  (matches_snp "a.s0p" "0" /\
   read_touchstone "a.s0p" ["1 2 3"] = Err UnrecognizedPortCount) /\
  ((forall ds, ~ matches_snp "a.s+1p" ds) /\
   exists d, read_touchstone "a.s+1p" ["1 2 3"] = Ok d /\ nports d = 1%Z).
Proof.
  split; split.
  - split; [discriminate |]. split; [reflexivity |]. by exists "a".
  - reflexivity.
  - intros ds Hm. pose proof (matches_snp_tail _ _ Hm) as Ht.
    injection Ht as <-. destruct Hm as (_ & Hd & _). discriminate Hd.
  - eexists. split; [run_decoder; reflexivity | reflexivity].
Qed.

(** ** C3: the three encodings *)

Section Reals.

Local Open Scope R_scope.

Lemma ln_10_pos : 0 < ln 10.
Proof. rewrite <- ln_1. apply ln_increasing; lra. Qed.

Lemma Rpower_10_log10 (m : R) : 0 < m -> Rpower 10 (20 * log10 m / 20) = m.
Proof.
  intros Hm. unfold Rpower, log10.
  replace (20 * (ln m / ln 10) / 20 * ln 10) with (ln m).
  - by apply exp_ln.
  - pose proof ln_10_pos. field. lra.
Qed.

Lemma to_complex_at_RI (a b : R) :
  to_complex_at (Fin a) (Fin b) "RI" = Cx (Fin a) (Fin b).
Proof. run_decoder. f_equal; f_equal; ring. Qed.

Lemma to_complex_at_MA (a b : R) :
  to_complex_at (Fin a) (Fin b) "MA"
  = Cx (Fin (a * cos (b * (PI / 180)))) (Fin (a * sin (b * (PI / 180)))).
Proof. run_decoder. f_equal; f_equal; ring. Qed.

Lemma to_complex_at_DB (a b : R) :
  to_complex_at (Fin a) (Fin b) "DB"
  = Cx (Fin (Rpower 10 (a / 20) * cos (b * (PI / 180))))
       (Fin (Rpower 10 (a / 20) * sin (b * (PI / 180)))).
Proof. run_decoder. f_equal; f_equal; ring. Qed.

Lemma to_complex_finite (enc : string) (g : R -> R -> complex)
      (la lb : list R) :
  (forall a b, to_complex_at (Fin a) (Fin b) enc = g a b) ->
  _to_complex (Fin <$> la) (Fin <$> lb) enc = zip_with g la lb.
Proof.
  intros Hg. unfold _to_complex. revert lb.
  induction la as [|a la IH]; intros [|b lb]; simpl; try reflexivity.
  by rewrite Hg, IH.
Qed.



(** ** C8: the encodings agree *)

(** C8.  For a magnitude [m > 0] and an angle [t] in degrees, the pair
    [(m, t)] under MA, the pair [(20 log10 m, t)] under DB and the pair
    [(m cos r, m sin r)] under RI, with [r = t pi / 180], are converted to
    the same complex value.  On real numbers the three values are equal;
    the rounding of floating-point arithmetic is outside the model. *)
Theorem encodings_agree (m t : R) :
  0 < m ->
  let r := t * (PI / 180) in
  to_complex_at (Fin (20 * log10 m)) (Fin t) "DB"
  = to_complex_at (Fin m) (Fin t) "MA" /\
  to_complex_at (Fin (m * cos r)) (Fin (m * sin r)) "RI"
  = to_complex_at (Fin m) (Fin t) "MA".
Proof.
  intros Hm r. rewrite to_complex_at_DB, to_complex_at_MA, to_complex_at_RI.
  by rewrite Rpower_10_log10.
Qed.

Lemma encodings_agree_witness :
  to_complex_at (Fin (20 * log10 2)) (Fin 90) "DB"
  = to_complex_at (Fin 2) (Fin 90) "MA".
Proof. apply (encodings_agree 2 90). lra. Defined.

(** ** C9: the magnitude in dB *)

Lemma flog10_floor (m : R) :
  flog10 (Fin (Rmax m 1e-20)) = Fin (log10 (Rmax m 1e-20)).
Proof.
  unfold flog10. destruct (Rlt_dec 0 (Rmax m 1e-20)) as [_|Hn]; [reflexivity |].
  exfalso. apply Hn. pose proof (Rmax_r m 1e-20). lra.
Qed.

Lemma sparam_db_at (a b : R) :
  sparam_db [Cx (Fin a) (Fin b)]
  = [Fin (20 * log10 (Rmax (sqrt (a * a + b * b)) 1e-20))].
Proof.
  unfold sparam_db. cbn [fmap list_fmap cabs re im fmaximum].
  rewrite flog10_floor. reflexivity.
Qed.

Lemma log10_floor : log10 1e-20 = -20.
Proof.
  unfold log10. replace 1e-20 with (/ 10 ^ 20) by lra.
  rewrite ln_Rinv by (apply pow_lt; lra).
  rewrite ln_pow by lra. pose proof ln_10_pos. simpl INR. field. lra.
Qed.

(** C9.  The magnitude transform returns a value for every input, one for
    each element of its argument, whatever the elements are.  At a complex
    number [x = a + i b] it is [20 log10 (max (|x|, 1e-20))] with
    [|x| = sqrt (a^2 + b^2)]; at [0 + 0i] it is -400, at [1 + 0i] it is 0. *)
Theorem sparam_db_floor (xs : list complex) (l : list (R * R)) :
  length (sparam_db xs) = length xs /\
  sparam_db ((fun ab => Cx (Fin ab.1) (Fin ab.2)) <$> l)
  = (fun ab => Fin (20 * log10 (Rmax (sqrt (ab.1 * ab.1 + ab.2 * ab.2))
                                     1e-20))) <$> l /\
  sparam_db [Cx (Fin 0) (Fin 0)] = [Fin (-400)] /\
  sparam_db [Cx (Fin 1) (Fin 0)] = [Fin 0].
Proof.
  split; [unfold sparam_db; by rewrite !length_fmap |]. split; [| split].
  - induction l as [|[a b] l IH]; [reflexivity |].
    change (sparam_db ((fun ab => Cx (Fin ab.1) (Fin ab.2)) <$> (a, b) :: l))
      with (sparam_db [Cx (Fin a) (Fin b)]
            ++ sparam_db ((fun ab => Cx (Fin ab.1) (Fin ab.2)) <$> l))%list.
    by rewrite sparam_db_at, IH.
  - rewrite sparam_db_at. do 2 f_equal.
    replace (0 * 0 + 0 * 0) with 0 by ring. rewrite sqrt_0.
    rewrite Rmax_right by lra. rewrite log10_floor. ring.
  - rewrite sparam_db_at. do 2 f_equal.
    replace (1 * 1 + 0 * 0) with 1 by ring. rewrite sqrt_1.
    rewrite Rmax_left by lra. unfold log10. rewrite ln_1.
    pose proof ln_10_pos. field. lra.
Qed.

End Reals.

(** ** C7: comments on the header line *)

(** On a data line the text from the first [!] on is removed before the
    line is cut into tokens. *)
Example data_line_comment :
  exists d,
    read_touchstone "x.s1p" ["1 0.5 0.25 ! 7 8 9"] = Ok d /\
    length (freq_hz d) = 1.
Proof. eexists. split; [run_decoder; reflexivity | reflexivity]. Qed.

(** C7 fails on the code: a header line is recognised, and its tokens are
    taken, before the step that removes an inline comment, which the loop
    reaches for data lines only.  The tokens of the header line
    [# GHZ S RI R 50 ! measured in MHz] hold the [!] and the words after it;
    among them is [MHZ], which [_unit_scale] looks for before [GHZ], so the
    frequency 1 GHz is decoded to 10^6 Hz.  Without the comment the same
    file gives 10^9 Hz. *)
Lemma header_comment_kept :
  header_parts (PyStr.strip "# GHZ S RI R 50 ! measured in MHz")
  = ["#"; "GHZ"; "S"; "RI"; "R"; "50"; "!"; "MEASURED"; "IN"; "MHZ"] /\
  (exists d,
     read_touchstone "x.s1p"
       ["# GHZ S RI R 50 ! measured in MHz"; "1 0.5 0.25"] = Ok d /\
     freq_hz d = [Fin 1e6]) /\
  (exists d,
     read_touchstone "x.s1p" ["# GHZ S RI R 50"; "1 0.5 0.25"] = Ok d /\
     freq_hz d = [Fin 1e9]) /\
  Fin 1e6 <> Fin 1e9.
Proof.
  split; [reflexivity |]. split; [| split].
  - eexists. split; [run_decoder; reflexivity |].
    cbn [freq_hz]. do 2 f_equal. simpl. lra.
  - eexists. split; [run_decoder; reflexivity |].
    cbn [freq_hz]. do 2 f_equal. simpl. lra.
  - intros [= H]. lra.
Qed.

(** * Further properties of the decoder *)

(** ** Words, blanks and comment marks *)

Lemma for_each_app {A S : Type} (l1 l2 : list A) (body : S -> A -> result S)
      (st : S) :
  for_each (l1 ++ l2)%list body st
  = for_each l1 body st ≫= for_each l2 body.
Proof.
  revert st. induction l1 as [|x l1 IH]; intros st; simpl; [reflexivity |].
  destruct (body st x) as [st1|e]; simpl; [apply IH | reflexivity].
Qed.

Lemma split_ws_go_cons (cur : option string) (c : ascii) (s : string) :
  PyStr.split_ws_go cur (String c s)
  = if PyStr.isspace c
    then match cur with
         | Some w => w :: PyStr.split_ws_go None s
         | None => PyStr.split_ws_go None s
         end
    else PyStr.split_ws_go
           (Some (match cur with
                  | Some w => w ++ String c EmptyString
                  | None => String c EmptyString
                  end)) s.
Proof. reflexivity. Qed.

(** The words of two texts joined by a blank are the words of the first
    followed by the words of the second. *)
Lemma split_ws_go_app (cur : option string) (a : string) (sp : ascii)
      (b : string) :
  PyStr.isspace sp = true ->
  PyStr.split_ws_go cur (a ++ String sp b)
  = (PyStr.split_ws_go cur a ++ PyStr.split_ws_go None b)%list.
Proof.
  intros Hsp. revert cur. induction a as [|c a IH]; intros cur.
  - change ("" ++ String sp b) with (String sp b).
    rewrite split_ws_go_cons, Hsp. by destruct cur.
  - change (String c a ++ String sp b) with (String c (a ++ String sp b)).
    rewrite !split_ws_go_cons. destruct (PyStr.isspace c).
    + destruct cur; by rewrite IH.
    + apply IH.
Qed.

Lemma split_ws_app (a b : string) (sp : ascii) :
  PyStr.isspace sp = true ->
  PyStr.split_ws (a ++ String sp b)
  = (PyStr.split_ws a ++ PyStr.split_ws b)%list.
Proof. apply split_ws_go_app. Qed.

Lemma map_chars_cons (f : ascii -> ascii) (c : ascii) (s : string) :
  PyStr.map_chars f (String c s) = String (f c) (PyStr.map_chars f s).
Proof. reflexivity. Qed.

(** Tabs count as blanks already. *)
Lemma split_ws_go_replace_tab (cur : option string) (s : string) :
  PyStr.split_ws_go cur (PyStr.replace_char "009" " " s)
  = PyStr.split_ws_go cur s.
Proof.
  unfold PyStr.replace_char. revert cur.
  induction s as [|c s IH]; intros cur; [reflexivity |].
  rewrite map_chars_cons, !split_ws_go_cons.
  destruct (Ascii.eqb_spec c "009") as [->|Hne].
  - change (PyStr.isspace " ") with true.
    change (PyStr.isspace "009") with true.
    destruct cur; by rewrite IH.
  - destruct (PyStr.isspace c); [destruct cur; by rewrite IH | apply IH].
Qed.

Lemma lstrip_cons (sp : ascii -> bool) (c : ascii) (s : string) :
  PyStr.lstrip_by sp (String c s)
  = if sp c then PyStr.lstrip_by sp s else String c s.
Proof. reflexivity. Qed.

Lemma rstrip_cons (sp : ascii -> bool) (c : ascii) (s : string) :
  PyStr.rstrip_by sp (String c s)
  = match PyStr.rstrip_by sp s with
    | EmptyString => if sp c then EmptyString else String c EmptyString
    | String c' r => String c (String c' r)
    end.
Proof. simpl. by destruct (PyStr.rstrip_by sp s). Qed.

Lemma split_ws_go_lstrip (s : string) :
  PyStr.split_ws_go None (PyStr.lstrip_by PyStr.isspace s)
  = PyStr.split_ws_go None s.
Proof.
  induction s as [|c s IH]; [reflexivity |].
  rewrite lstrip_cons, split_ws_go_cons.
  destruct (PyStr.isspace c) eqn:Hc; [exact IH |].
  by rewrite split_ws_go_cons, Hc.
Qed.

Lemma split_ws_go_rstrip (cur : option string) (s : string) :
  PyStr.split_ws_go cur (PyStr.rstrip_by PyStr.isspace s)
  = PyStr.split_ws_go cur s.
Proof.
  revert cur. induction s as [|c s IH]; intros cur; [reflexivity |].
  rewrite rstrip_cons, split_ws_go_cons.
  destruct (PyStr.rstrip_by PyStr.isspace s) as [|c' r] eqn:Hr.
  - destruct (PyStr.isspace c) eqn:Hc.
    + destruct cur as [w|]; rewrite <- IH; reflexivity.
    + rewrite <- IH. by rewrite split_ws_go_cons, Hc.
  - rewrite split_ws_go_cons. destruct (PyStr.isspace c).
    + destruct cur; by rewrite IH.
    + apply IH.
Qed.

(** Stripping a line does not change its words. *)
Lemma split_ws_strip (s : string) :
  PyStr.split_ws (PyStr.strip s) = PyStr.split_ws s.
Proof.
  unfold PyStr.split_ws, PyStr.strip.
  by rewrite split_ws_go_rstrip, split_ws_go_lstrip.
Qed.

(** The words that the loop reads on a data line *)
Lemma data_line_words (s : string) :
  PyStr.split_ws (PyStr.replace_char "009" " " (PyStr.strip s))
  = PyStr.split_ws s.
Proof.
  unfold PyStr.split_ws at 1. rewrite split_ws_go_replace_tab.
  apply split_ws_strip.
Qed.

Lemma contains_bang_cons (c : ascii) (s : string) :
  PyStr.contains "!" (String c s)
  = (if ascii_dec "!" c then true else false) || PyStr.contains "!" s.
Proof.
  rewrite contains_cons, prefix_cons.
  destruct (ascii_dec "!" c); [by destruct s | reflexivity].
Qed.

Lemma contains_bang_app (a b : string) :
  PyStr.contains "!" (a ++ b)
  = PyStr.contains "!" a || PyStr.contains "!" b.
Proof.
  induction a as [|c a IH]; [reflexivity |].
  change (String c a ++ b) with (String c (a ++ b)).
  by rewrite !contains_bang_cons, IH, orb_assoc.
Qed.

Lemma contains_bang_lstrip (s : string) :
  PyStr.contains "!" s = false ->
  PyStr.contains "!" (PyStr.lstrip_by PyStr.isspace s) = false.
Proof.
  induction s as [|c s IH]; [reflexivity |].
  rewrite lstrip_cons. destruct (PyStr.isspace c); [| auto].
  rewrite contains_bang_cons. intros H.
  apply orb_false_elim in H as [_ H]. auto.
Qed.

Lemma contains_bang_rstrip (s : string) :
  PyStr.contains "!" s = false ->
  PyStr.contains "!" (PyStr.rstrip_by PyStr.isspace s) = false.
Proof.
  induction s as [|c s IH]; [reflexivity |].
  rewrite contains_bang_cons. intros H.
  apply orb_false_elim in H as [Hc Hs]. specialize (IH Hs).
  rewrite rstrip_cons.
  destruct (PyStr.rstrip_by PyStr.isspace s) as [|c' r].
  - destruct (PyStr.isspace c); [reflexivity |].
    by rewrite contains_bang_cons, Hc.
  - by rewrite contains_bang_cons, Hc, IH.
Qed.

Lemma contains_bang_strip (s : string) :
  PyStr.contains "!" s = false ->
  PyStr.contains "!" (PyStr.strip s) = false.
Proof.
  intros H. by apply contains_bang_rstrip, contains_bang_lstrip.
Qed.

(** ** What a data line adds to the numeric stream *)

Lemma scan_state_eta (st : scan_state) :
  {| cur_unit_scale := cur_unit_scale st; cur_fmt := cur_fmt st;
     cur_z0 := cur_z0 st; data_rows := data_rows st |} = st.
Proof. by destruct st. Qed.

(** A data line without [!] adds to the numeric stream the values of its
    words that [float] accepts, in their order, and changes nothing else;
    the words that [float] rejects are dropped. *)
Lemma scan_data_line (st : scan_state) (line : string) :
  is_data line = true ->
  PyStr.contains "!" line = false ->
  scan_line st line = Ok (with_tokens st (PyStr.split_ws line)).
Proof.
  unfold is_data. intros Hd Hb. apply andb_prop in Hd as [Hh Hc].
  apply negb_true_iff in Hh, Hc.
  unfold scan_line. rewrite Hh, Hc, (contains_bang_strip _ Hb).
  cbn [mbind result_bind].
  destruct (String.eqb_spec (PyStr.strip line) "") as [He|Hne].
  - rewrite <- (split_ws_strip line), He. unfold with_tokens. simpl.
    by rewrite scan_state_eta.
  - unfold with_tokens. by rewrite data_line_words.
Qed.

Lemma append_floats_app (rows : list pyfloat) (t1 t2 : list string) :
  append_floats rows (t1 ++ t2)%list
  = append_floats (append_floats rows t1) t2.
Proof. unfold append_floats. apply fold_left_app. Qed.

(** The values that a list of words adds *)
Lemma append_floats_omap (rows : list pyfloat) (toks : list string) :
  append_floats rows toks = (rows ++ omap py_float toks)%list.
Proof.
  revert rows. induction toks as [|tok toks IH]; intros rows; simpl.
  - by rewrite app_nil_r.
  - unfold append_floats in *. simpl. rewrite IH.
    destruct (py_float tok); [by rewrite <- app_assoc | reflexivity].
Qed.

(** ** The first character of a line *)

Lemma startswith_char (ch d : ascii) (r : string) :
  PyStr.startswith (String d r) (String ch EmptyString)
  = if ascii_dec ch d then true else false.
Proof.
  unfold PyStr.startswith. rewrite prefix_cons.
  destruct (ascii_dec ch d); [by destruct r | reflexivity].
Qed.

Lemma lstrip_head (s : string) (d : ascii) (r : string) :
  PyStr.lstrip_by PyStr.isspace s = String d r -> PyStr.isspace d = false.
Proof.
  induction s as [|c s IH]; [discriminate |].
  rewrite lstrip_cons. destruct (PyStr.isspace c) eqn:Hc; [exact IH |].
  intros [= <- _]. exact Hc.
Qed.

Lemma rstrip_head (d : ascii) (r : string) :
  PyStr.isspace d = false ->
  exists r', PyStr.rstrip_by PyStr.isspace (String d r) = String d r'.
Proof.
  intros Hd. rewrite rstrip_cons, Hd.
  destruct (PyStr.rstrip_by PyStr.isspace r); eauto.
Qed.

(** The stripped line starts with the first non-blank character of the
    line. *)
Lemma startswith_strip (ch : ascii) (l : string) :
  PyStr.startswith (PyStr.strip l) (String ch EmptyString)
  = PyStr.startswith (PyStr.lstrip_by PyStr.isspace l) (String ch EmptyString).
Proof.
  unfold PyStr.strip.
  destruct (PyStr.lstrip_by PyStr.isspace l) as [|d r] eqn:Hl; [reflexivity |].
  destruct (rstrip_head d r (lstrip_head _ _ _ Hl)) as (r' & ->).
  by rewrite !startswith_char.
Qed.

Lemma lstrip_app_nonblank (a : string) (d : ascii) (r b : string) :
  PyStr.lstrip_by PyStr.isspace a = String d r ->
  PyStr.lstrip_by PyStr.isspace (a ++ b) = String d r ++ b.
Proof.
  induction a as [|c a IH]; [discriminate |].
  change (String c a ++ b) with (String c (a ++ b)).
  rewrite !lstrip_cons. destruct (PyStr.isspace c); [exact IH |].
  by intros [= <- <-].
Qed.

Lemma lstrip_app_blank (a b : string) :
  PyStr.lstrip_by PyStr.isspace a = "" ->
  PyStr.lstrip_by PyStr.isspace (a ++ b) = PyStr.lstrip_by PyStr.isspace b.
Proof.
  induction a as [|c a IH]; [reflexivity |].
  change (String c a ++ b) with (String c (a ++ b)).
  rewrite !lstrip_cons. destruct (PyStr.isspace c); [exact IH | discriminate].
Qed.

Lemma is_data_lstrip (l : string) :
  is_data l
  = negb (PyStr.startswith (PyStr.lstrip_by PyStr.isspace l) "#")
    && negb (PyStr.startswith (PyStr.lstrip_by PyStr.isspace l) "!").
Proof. unfold is_data. by rewrite !startswith_strip. Qed.

(** Two data lines joined by a blank make a data line. *)
Lemma is_data_join (a b : string) (sp : ascii) :
  PyStr.isspace sp = true ->
  is_data a = true -> is_data b = true ->
  is_data (a ++ String sp b) = true.
Proof.
  intros Hsp Ha Hb. rewrite is_data_lstrip in *.
  destruct (PyStr.lstrip_by PyStr.isspace a) as [|d r] eqn:Hl.
  - rewrite (lstrip_app_blank _ _ Hl), lstrip_cons, Hsp. exact Hb.
  - rewrite (lstrip_app_nonblank _ _ _ _ Hl).
    change (String d r ++ String sp b) with (String d (r ++ String sp b)).
    rewrite !startswith_char in *. exact Ha.
Qed.

(** ** Lines that may be wrapped, and lines that do not count *)

(** A data line broken at a blank into two lines adds the same values:
    one turn of the loop on [a ++ sp ++ b] is two turns, on [a] and on [b]. *)
Lemma scan_line_wrap (st : scan_state) (a b : string) (sp : ascii) :
  PyStr.isspace sp = true ->
  is_data a = true -> is_data b = true ->
  PyStr.contains "!" a = false -> PyStr.contains "!" b = false ->
  scan_line st (a ++ String sp b)
  = scan_line st a ≫= (fun st' => scan_line st' b).
Proof.
  intros Hsp Ha Hb Hna Hnb.
  rewrite (scan_data_line st a Ha Hna). cbn [mbind result_bind].
  rewrite (scan_data_line _ b Hb Hnb).
  rewrite scan_data_line.
  - rewrite split_ws_app by assumption.
    unfold with_tokens. cbn [data_rows cur_unit_scale cur_fmt cur_z0].
    by rewrite append_floats_app.
  - by apply is_data_join.
  - rewrite contains_bang_app, Hna.
    change (String sp b) with (String sp "" ++ b).
    rewrite contains_bang_app, Hnb, contains_bang_cons.
    destruct (ascii_dec "!" sp) as [<-|]; [discriminate Hsp | reflexivity].
Qed.

(** A blank line and a full-line comment change nothing. *)
Lemma scan_line_skip (st : scan_state) (c : string) :
  PyStr.strip c = "" \/ PyStr.startswith (PyStr.strip c) "!" = true ->
  scan_line st c = Ok st.
Proof.
  unfold scan_line. intros [-> | Hc]; [reflexivity |].
  destruct (String.eqb (PyStr.strip c) ""); [reflexivity |]. by rewrite Hc.
Qed.

(** Replacing a line by lines that the loop treats alike does not change
    the decode. *)
Lemma read_touchstone_replace (name : string) (before after l1 l2
                                             : list string) :
  (forall st, for_each l1 scan_line st = for_each l2 scan_line st) ->
  read_touchstone name (before ++ l1 ++ after)
  = read_touchstone name (before ++ l2 ++ after).
Proof.
  intros Hsame. unfold read_touchstone.
  rewrite !for_each_app.
  destruct (for_each before scan_line scan_init) as [st|e]; [| reflexivity].
  cbn [mbind result_bind]. by rewrite !for_each_app, Hsame.
Qed.

(** ** Inline comments on data lines *)

Lemma rstrip_app_nonblank (x : string) (ch : ascii) (c : string) :
  PyStr.isspace ch = false ->
  PyStr.rstrip_by PyStr.isspace (x ++ String ch c)
  = x ++ PyStr.rstrip_by PyStr.isspace (String ch c).
Proof.
  intros Hch. destruct (rstrip_head ch c Hch) as (r' & Hr').
  induction x as [|d x IH]; [reflexivity |].
  change (String d x ++ String ch c) with (String d (x ++ String ch c)).
  rewrite rstrip_cons, IH, Hr'. by destruct x.
Qed.

(** The piece of [split("!")] before the first [!] *)
Lemma split_bang_head (x c : string) :
  PyStr.contains "!" x = false ->
  head (PyStr.split (x ++ String "!" c) "!") = Some x.
Proof.
  unfold PyStr.split. induction x as [|d x IH]; intros Hx.
  - change ("" ++ String "!" c) with (String "!" c).
    rewrite split_go_cons, prefix_cons.
    destruct (ascii_dec "!" "!"); [| congruence]. by destruct c.
  - rewrite contains_bang_cons in Hx. apply orb_false_elim in Hx as [Hd Hx].
    change (String d x ++ String "!" c) with (String d (x ++ String "!" c)).
    rewrite split_go_cons, prefix_cons.
    destruct (ascii_dec "!" d); [discriminate Hd |].
    specialize (IH Hx).
    destruct (PyStr.split_go "!" 0 (x ++ String "!" c)) as [|piece rest];
      [discriminate IH |].
    simpl in IH. injection IH as ->. reflexivity.
Qed.

(** On a line that is no header line, the text from the first [!] on does
    not count: the loop treats [a ++ "!" ++ c] as it treats [a]. *)
Lemma scan_line_inline_comment (st : scan_state) (a c : string) :
  PyStr.contains "!" a = false ->
  is_header a = false ->
  scan_line st (a ++ String "!" c) = scan_line st a.
Proof.
  intros Hb Hh. unfold is_header in Hh. rewrite startswith_strip in Hh.
  pose proof (contains_bang_lstrip a Hb) as Hbl.
  destruct (rstrip_head "!" c eq_refl) as (r' & Hr').
  unfold scan_line, PyStr.strip.
  destruct (PyStr.lstrip_by PyStr.isspace a) as [|d r] eqn:Hl.
  - rewrite (lstrip_app_blank _ _ Hl), lstrip_cons.
    change (PyStr.isspace "!") with false. cbv iota. rewrite Hr'.
    by destruct r'.
  - pose proof (lstrip_head _ _ _ Hl) as Hd.
    rewrite (lstrip_app_nonblank _ _ _ _ Hl).
    rewrite rstrip_app_nonblank by reflexivity. rewrite Hr'.
    destruct (rstrip_head d r Hd) as (x & Hx). rewrite Hx.
    rewrite startswith_char in Hh.
    rewrite contains_bang_cons in Hbl.
    apply orb_false_elim in Hbl as [Hd' Hbl].
    change (String d r ++ String "!" r') with (String d (r ++ String "!" r')).
    rewrite !startswith_char.
    change (String.eqb (String d (r ++ String "!" r')) "") with false.
    change (String.eqb (String d x) "") with false.
    destruct (ascii_dec "!" d); [discriminate Hd' |].
    destruct (ascii_dec "#" d); [discriminate Hh |].
    cbv iota.
    change (String d (r ++ String "!" r')) with (String d r ++ String "!" r').
    rewrite contains_bang_app.
    assert (PyStr.contains "!" (String "!" r') = true) as ->
        by (rewrite contains_bang_cons; by destruct (ascii_dec "!" "!")).
    rewrite orb_true_r.
    rewrite split_bang_head
      by (rewrite contains_bang_cons; by destruct (ascii_dec "!" d)).
    cbn [of_option mbind result_bind].
    rewrite lstrip_cons, Hd, Hx.
    assert (PyStr.contains "!" (String d x) = false) as ->.
    { rewrite <- Hx. apply contains_bang_rstrip.
      rewrite contains_bang_cons. by destruct (ascii_dec "!" d). }
    reflexivity.
Qed.

(** ** X1 to X4: what does not change a decode *)

(** X1.  Blank lines and full-line comments do not count: a line that is
    empty once stripped, or whose first non-blank character is [!], may be
    put anywhere in a file, or taken out, without changing the result of
    the decode, a dataset or an error. *)
Theorem comment_lines_ignored (name : string) (before after : list string)
        (c : string) :
  PyStr.strip c = "" \/ PyStr.startswith (PyStr.strip c) "!" = true ->
  read_touchstone name (before ++ c :: after)
  = read_touchstone name (before ++ after).
Proof.
  intros Hc. apply (read_touchstone_replace name before after [c] []).
  intros st. simpl. by rewrite (scan_line_skip st c Hc).
Qed.

Lemma comment_lines_ignored_witness :
  read_touchstone "x.s1p" ["1 2 3"; " ! a comment"; "4 5 6"]
  = read_touchstone "x.s1p" ["1 2 3"; "4 5 6"].
Proof.
  apply (comment_lines_ignored "x.s1p" ["1 2 3"] ["4 5 6"] " ! a comment").
  right. reflexivity.
Defined.

(** X2.  On every line but a header line, the text from the first [!] to
    the end of the line does not count: the decode of a file is the same
    with the line [a ++ "!" ++ c] as with the line [a]. *)
Theorem inline_comment_ignored (name : string) (before after : list string)
        (a c : string) :
  PyStr.contains "!" a = false ->
  is_header a = false ->
  read_touchstone name (before ++ (a ++ String "!" c) :: after)
  = read_touchstone name (before ++ a :: after).
Proof.
  intros Hb Hh.
  apply (read_touchstone_replace name before after
           [a ++ String "!" c] [a]).
  intros st. simpl. by rewrite scan_line_inline_comment.
Qed.

Lemma inline_comment_ignored_witness :
  read_touchstone "x.s1p" ["1 2 3 ! 4 5 6"]
  = read_touchstone "x.s1p" ["1 2 3 "].
Proof.
  apply (inline_comment_ignored "x.s1p" [] [] "1 2 3 " " 4 5 6");
    reflexivity.
Defined.

(** X3.  A data line may be wrapped: breaking a data line at a blank into
    two lines does not change the result of the decode. *)
Theorem wrapped_line (name : string) (before after : list string)
        (a b : string) (sp : ascii) :
  PyStr.isspace sp = true ->
  is_data a = true -> is_data b = true ->
  PyStr.contains "!" a = false -> PyStr.contains "!" b = false ->
  read_touchstone name (before ++ (a ++ String sp b) :: after)
  = read_touchstone name (before ++ a :: b :: after).
Proof.
  intros Hsp Ha Hb Hna Hnb.
  apply (read_touchstone_replace name before after
           [a ++ String sp b] [a; b]).
  intros st. simpl. rewrite scan_line_wrap by assumption.
  destruct (scan_line st a) as [st1|e]; [| reflexivity].
  cbn [mbind result_bind]. by destruct (scan_line st1 b).
Qed.

Lemma wrapped_line_witness :
  read_touchstone "x.s1p" ["# MHZ S RI R 50"; "100 0.5 0.25"]
  = read_touchstone "x.s1p" ["# MHZ S RI R 50"; "100 0.5"; "0.25"].
Proof.
  apply (wrapped_line "x.s1p" ["# MHZ S RI R 50"] [] "100 0.5" "0.25" " ");
    reflexivity.
Defined.

Lemma scan_data_lines (text : list string) (st : scan_state) :
  Forall (fun l => is_data l = true /\ PyStr.contains "!" l = false) text ->
  for_each text scan_line st
  = Ok (with_tokens st (concat (PyStr.split_ws <$> text))).
Proof.
  intros Hall. revert st. induction Hall as [|l text [Hd Hb] _ IH]; intros st.
  - simpl. unfold with_tokens. simpl. by rewrite scan_state_eta.
  - simpl. rewrite (scan_data_line st l Hd Hb). cbn [mbind result_bind].
    rewrite IH. unfold with_tokens.
    cbn [data_rows cur_unit_scale cur_fmt cur_z0].
    by rewrite append_floats_app.
Qed.

(** X4.  A file without a header line and without comment marks is read as
    one stream of words, whatever its division into lines: the words that
    [float] accepts are the numeric stream, in their order, the others are
    dropped, and the stream is assembled with the unit Hz, the encoding RI
    and the reference impedance 50. *)
Theorem headerless_stream (name : string) (text : list string) :
  Forall (fun l => is_data l = true /\ PyStr.contains "!" l = false) text ->
  read_touchstone name text
  = assemble (_infer_nports name) (Fin 1) "RI" (Fin 50)
             (omap py_float (concat (PyStr.split_ws <$> text))).
Proof.
  intros Hall. unfold read_touchstone.
  rewrite (scan_data_lines text scan_init Hall). cbn [mbind result_bind].
  unfold with_tokens. cbn [data_rows cur_unit_scale cur_fmt cur_z0 scan_init].
  by rewrite append_floats_omap.
Qed.

Lemma headerless_stream_witness :
  exists d,
    read_touchstone "x.s1p" ["1 abc 2"; ""; "3"] = Ok d /\
    length (freq_hz d) = 1.
Proof.
  rewrite (headerless_stream "x.s1p" ["1 abc 2"; ""; "3"]).
  - eexists. split; [run_decoder; reflexivity | reflexivity].
  - repeat constructor.
Defined.

(** ** X5 and X6: the header line *)

Lemma read_touchstone_fields (name : string) (text : list string)
      (d : TouchstoneData) :
  read_touchstone name text = Ok d ->
  exists st,
    for_each text scan_line scan_init = Ok st /\
    fmt d = cur_fmt st /\ z0 d = cur_z0 st.
Proof.
  intros Hread.
  destruct (read_touchstone_assemble name text) as (st & Hst & Heq).
  exists st. split; [assumption |]. rewrite Heq in Hread.
  destruct (Z_le_gt_dec (_infer_nports name) 0) as [Hle|Hgt].
  { rewrite assemble_no_ports in Hread by assumption. discriminate. }
  set (P := _infer_nports name) in *.
  destruct (le_lt_dec (1 + 2 * (Z.to_nat P * Z.to_nat P))
                      (length (data_rows st))) as [Hw|Hw].
  - destruct (assemble_points P (cur_unit_scale st) (cur_fmt st) (cur_z0 st)
                (data_rows st)) as (d' & Hd & _ & Hf & Hz & _);
      [lia | assumption |].
    rewrite Hd in Hread. injection Hread as <-. auto.
  - rewrite assemble_short in Hread by (assumption || lia). discriminate.
Qed.

Lemma parse_format_values (parts : list string) :
  _parse_format parts = "RI" \/ _parse_format parts = "MA" \/
  _parse_format parts = "DB".
Proof.
  unfold _parse_format. simpl.
  destruct (PyStr.list_in "RI" parts); [by left |].
  destruct (PyStr.list_in "MA" parts); [right; by left |].
  destruct (PyStr.list_in "DB" parts); [right; by right | by left].
Qed.

(** X5.  The last header line of a file governs wherever it stands, also
    after the data: the encoding of a decoded dataset is the format of the
    tokens of that line, and its reference impedance is what [_parse_z0]
    reads there; without a header line they are RI and 50.  The encoding is
    always one of RI, MA and DB. *)
Theorem header_governs (name : string) (text : list string)
        (d : TouchstoneData) :
  read_touchstone name text = Ok d ->
  fmt d = _parse_format (governing_parts text) /\
  _parse_z0 (governing_parts text) = Ok (z0 d) /\
  (governing_header text = None -> fmt d = "RI" /\ z0 d = Fin 50) /\
  (fmt d = "RI" \/ fmt d = "MA" \/ fmt d = "DB").
Proof.
  intros Hread.
  destruct (read_touchstone_fields name text d Hread) as (st & Hst & -> & ->).
  destruct (scan_governing text st Hst) as (_ & Hf & Hz).
  split; [assumption |]. split; [assumption |]. split.
  - intros Hnone. unfold governing_parts in Hf, Hz. rewrite Hnone in Hf, Hz.
    split; [exact Hf |]. by injection Hz.
  - rewrite Hf. apply parse_format_values.
Qed.

Lemma header_governs_witness :
  exists d,
    read_touchstone "x.s1p" ["# HZ S RI R 50"; "1 2 3"; "# GHZ S MA R 75"]
    = Ok d /\
    fmt d = "MA".
Proof.
  eexists. split; [run_decoder; reflexivity |].
  refine (proj1 (header_governs "x.s1p"
            ["# HZ S RI R 50"; "1 2 3"; "# GHZ S MA R 75"] _ _)).
  run_decoder. reflexivity.
Defined.

(** X6.  The unit scale and the format of a header depend only on which of
    the keywords its tokens contain: the order of the tokens, their
    repetition and every other token are without effect. *)
Theorem header_keywords_only (parts parts' : list string) :
  (forall k, In k ["HZ"; "KHZ"; "MHZ"; "GHZ"; "RI"; "MA"; "DB"] ->
             In k parts <-> In k parts') ->
  _unit_scale parts = _unit_scale parts' /\
  _parse_format parts = _parse_format parts'.
Proof.
  intros Hsame.
  assert (forall k, In k ["HZ"; "KHZ"; "MHZ"; "GHZ"; "RI"; "MA"; "DB"] ->
                    PyStr.list_in k parts = PyStr.list_in k parts') as Hin.
  { intros k Hk. specialize (Hsame k Hk).
    destruct (PyStr.list_in k parts) eqn:H1,
             (PyStr.list_in k parts') eqn:H2; try reflexivity.
    - apply list_in_iff in H1. apply list_in_false in H2. tauto.
    - apply list_in_false in H1. apply list_in_iff in H2. tauto. }
  unfold _unit_scale, _parse_format. simpl.
  rewrite !Hin by (simpl; tauto). split; reflexivity.
Qed.

Lemma header_keywords_only_witness :
  _unit_scale ["#"; "GHZ"; "S"; "MA"; "R"; "50"]
  = _unit_scale ["MA"; "FOO"; "GHZ"; "GHZ"] /\
  _parse_format ["#"; "GHZ"; "S"; "MA"; "R"; "50"]
  = _parse_format ["MA"; "FOO"; "GHZ"; "GHZ"].
Proof.
  apply (header_keywords_only ["#"; "GHZ"; "S"; "MA"; "R"; "50"]
                              ["MA"; "FOO"; "GHZ"; "GHZ"]).
  intros k Hk. simpl in Hk.
  repeat (destruct Hk as [<-|Hk]; [simpl; split; intros H;
    repeat (destruct H as [H|H]; try discriminate H); tauto |]).
  destruct Hk.
Defined.

(** ** X7 and X8: letter case *)

Lemma upper_char_idem (c : ascii) :
  PyStr.upper_char (PyStr.upper_char c) = PyStr.upper_char c.
Proof. by destruct c as [[] [] [] [] [] [] [] []]. Qed.

Lemma lower_char_idem (c : ascii) :
  PyStr.lower_char (PyStr.lower_char c) = PyStr.lower_char c.
Proof. by destruct c as [[] [] [] [] [] [] [] []]. Qed.

Lemma lower_upper_char (c : ascii) :
  PyStr.lower_char (PyStr.upper_char c) = PyStr.lower_char c.
Proof. by destruct c as [[] [] [] [] [] [] [] []]. Qed.

Lemma isspace_upper_char (c : ascii) :
  PyStr.isspace (PyStr.upper_char c) = PyStr.isspace c.
Proof. by destruct c as [[] [] [] [] [] [] [] []]. Qed.

Lemma map_chars_compose (f g h : ascii -> ascii) (s : string) :
  (forall c, f (g c) = h c) ->
  PyStr.map_chars f (PyStr.map_chars g s) = PyStr.map_chars h s.
Proof.
  intros Hc. induction s as [|c s IH]; [reflexivity |].
  rewrite !map_chars_cons. by rewrite Hc, IH.
Qed.

Lemma lstrip_upper (s : string) :
  PyStr.lstrip_by PyStr.isspace (PyStr.upper s)
  = PyStr.upper (PyStr.lstrip_by PyStr.isspace s).
Proof.
  unfold PyStr.upper. induction s as [|c s IH]; [reflexivity |].
  rewrite map_chars_cons, !lstrip_cons, isspace_upper_char.
  destruct (PyStr.isspace c); [exact IH | by rewrite map_chars_cons].
Qed.

Lemma rstrip_upper (s : string) :
  PyStr.rstrip_by PyStr.isspace (PyStr.upper s)
  = PyStr.upper (PyStr.rstrip_by PyStr.isspace s).
Proof.
  unfold PyStr.upper. induction s as [|c s IH]; [reflexivity |].
  rewrite map_chars_cons, !rstrip_cons, IH, isspace_upper_char.
  destruct (PyStr.rstrip_by PyStr.isspace s) as [|d r];
    [by destruct (PyStr.isspace c) | reflexivity].
Qed.

Lemma strip_upper (s : string) :
  PyStr.strip (PyStr.upper s) = PyStr.upper (PyStr.strip s).
Proof. unfold PyStr.strip. by rewrite lstrip_upper, rstrip_upper. Qed.

Lemma startswith_hash_upper (s : string) :
  PyStr.startswith (PyStr.upper s) "#" = PyStr.startswith s "#".
Proof.
  destruct s as [|c s]; [reflexivity |].
  unfold PyStr.upper. rewrite map_chars_cons, !startswith_char.
  by destruct c as [[] [] [] [] [] [] [] []].
Qed.

(** X7.  The header line is read without regard to letter case: a header
    line may be replaced by any line with the same upper-case form. *)
Theorem header_case_insensitive (name : string)
        (before after : list string) (h h' : string) :
  PyStr.upper h = PyStr.upper h' ->
  is_header h = true ->
  read_touchstone name (before ++ h :: after)
  = read_touchstone name (before ++ h' :: after).
Proof.
  intros Hup Hh.
  assert (PyStr.upper (PyStr.strip h) = PyStr.upper (PyStr.strip h')) as Hs.
  { by rewrite <- !strip_upper, Hup. }
  assert (is_header h' = true) as Hh'.
  { unfold is_header in *.
    by rewrite <- startswith_hash_upper, <- Hs, startswith_hash_upper. }
  apply (read_touchstone_replace name before after [h] [h']).
  intros st. cbn [for_each].
  destruct (scan_line_header st h Hh) as (z & Hz & ->).
  destruct (scan_line_header st h' Hh') as (z' & Hz' & ->).
  unfold header_parts in *. rewrite Hs in *.
  rewrite Hz in Hz'. by injection Hz' as ->.
Qed.

Lemma header_case_insensitive_witness :
  read_touchstone "x.s1p" ["# GHz s ma r 75"; "1 2 3"]
  = read_touchstone "x.s1p" ["# GHZ S MA R 75"; "1 2 3"].
Proof.
  apply (header_case_insensitive "x.s1p" [] ["1 2 3"]
           "# GHz s ma r 75" "# GHZ S MA R 75"); reflexivity.
Defined.

(** X8.  The port count is read from the name without regard to letter
    case, so that the decode of a file is the same under the upper-case
    and the lower-case form of its name. *)
Theorem name_case_insensitive (name : string) (text : list string) :
  _infer_nports (PyStr.upper name) = _infer_nports name /\
  _infer_nports (PyStr.lower name) = _infer_nports name /\
  read_touchstone (PyStr.upper name) text = read_touchstone name text /\
  read_touchstone (PyStr.lower name) text = read_touchstone name text.
Proof.
  assert (PyStr.lower (PyStr.upper name) = PyStr.lower name) as Hu.
  { apply map_chars_compose, lower_upper_char. }
  assert (PyStr.lower (PyStr.lower name) = PyStr.lower name) as Hl.
  { apply map_chars_compose, lower_char_idem. }
  unfold read_touchstone, _infer_nports. rewrite Hu, Hl. repeat split.
Qed.

(** ** X9: the outcomes of a decode *)

(** X9.  A decode ends in one of three ways, and which one is decided by
    the port count [P] of the name and by the number [T] of values that the
    loop over the lines has collected: [UnrecognizedPortCount] when [P] is
    not positive, whatever the file holds; [InsufficientData] when [P] is
    positive and [T] is less than the [1 + 2 P^2] values of one point; a
    dataset otherwise.  No error of the array library (a reshape of the
    wrong size, an index out of range, an assignment of the wrong length)
    ever leaves the decoder. *)
Theorem decode_outcomes (name : string) (text : list string) :
  let P := _infer_nports name in
  let w := 1 + 2 * (Z.to_nat P * Z.to_nat P) in
  exists st,
    for_each text scan_line scan_init = Ok st /\
    let T := length (data_rows st) in
    read_touchstone name text <> Err LibraryError /\
    (read_touchstone name text = Err UnrecognizedPortCount <-> (P <= 0)%Z) /\
    (read_touchstone name text = Err InsufficientData
     <-> (0 < P)%Z /\ T < w) /\
    ((exists d, read_touchstone name text = Ok d) <-> (0 < P)%Z /\ w <= T).
Proof.
  intros P w.
  destruct (read_touchstone_assemble name text) as (st & Hst & Hread).
  exists st. split; [assumption |]. intros T. fold P in Hread.
  destruct (Z_le_gt_dec P 0) as [HP|HP].
  { rewrite Hread, assemble_no_ports by assumption.
    split; [discriminate |]. split; [tauto |].
    split; (split; [| lia]); [discriminate | by intros (d & ?)]. }
  destruct (le_lt_dec w T) as [Hw|Hw].
  - destruct (assemble_points P (cur_unit_scale st) (cur_fmt st) (cur_z0 st)
                (data_rows st)) as (d & Hd & _); [lia | assumption |].
    rewrite Hread, Hd. split; [discriminate |].
    split; [split; [discriminate | lia] |].
    split; [split; [discriminate | lia] |].
    split; [lia | eauto].
  - rewrite Hread, assemble_short by (assumption || lia).
    split; [discriminate |].
    split; [split; [discriminate | lia] |].
    split; [split; [lia | reflexivity] |].
    split; [by intros (d & ?) | lia].
Qed.

(** ** X10 and X11: the magnitude in dB of a decoded value *)

Section Magnitude.

Local Open Scope R_scope.

Lemma sparam_db_cons (x : complex) (xs : list complex) :
  sparam_db (x :: xs) = (sparam_db [x] ++ sparam_db xs)%list.
Proof. reflexivity. Qed.

Lemma hypot_polar (m t : R) :
  sqrt (m * cos t * (m * cos t) + m * sin t * (m * sin t)) = Rabs m.
Proof.
  replace (m * cos t * (m * cos t) + m * sin t * (m * sin t))
    with (Rsqr m * (Rsqr (sin t) + Rsqr (cos t))) by (unfold Rsqr; ring).
  rewrite sin2_cos2, Rmult_1_r. apply sqrt_Rsqr_abs.
Qed.

Lemma ln_floor : ln 1e-20 = -20 * ln 10.
Proof.
  pose proof log10_floor as H. unfold log10 in H.
  pose proof ln_10_pos.
  replace (ln 1e-20) with (ln 1e-20 / ln 10 * ln 10) by (field; lra).
  by rewrite H.
Qed.

Lemma db_floor (x : R) :
  20 * log10 (Rmax (Rpower 10 (x / 20)) 1e-20) = Rmax x (-400).
Proof.
  pose proof ln_10_pos as H10.
  assert (0 < Rpower 10 (x / 20)) as Hpos by apply exp_pos.
  assert (ln (Rpower 10 (x / 20)) = x / 20 * ln 10) as Hln
    by apply ln_exp.
  destruct (Rle_dec (Rpower 10 (x / 20)) 1e-20) as [Hle|Hgt].
  - rewrite Rmax_right by assumption. rewrite log10_floor.
    assert (ln (Rpower 10 (x / 20)) <= ln 1e-20) as Hl.
    { destruct Hle as [Hlt| ->]; [left; by apply ln_increasing | lra]. }
    rewrite Hln, ln_floor in Hl.
    rewrite Rmax_right by nra. ring.
  - apply Rnot_le_lt in Hgt. rewrite Rmax_left by lra.
    apply ln_increasing in Hgt; [| lra]. rewrite Hln, ln_floor in Hgt.
    rewrite Rmax_left by nra. unfold log10. rewrite Hln. field. lra.
Qed.

Lemma sparam_db_zip (g : R -> R -> complex) (f : R -> R)
      (la lb : list R) :
  (forall a b, sparam_db [g a b] = [Fin (f a)]) ->
  length la = length lb ->
  sparam_db (zip_with g la lb) = (fun a => Fin (f a)) <$> la.
Proof.
  intros Hg. revert lb.
  induction la as [|a la IH]; intros [|b lb] Hlen; try discriminate Hlen;
    [reflexivity |].
  cbn [zip_with]. rewrite sparam_db_cons, Hg, IH by (by injection Hlen).
  reflexivity.
Qed.

(** X10.  A magnitude written in dB comes back: the values of a DB file,
    decoded and then passed to the magnitude transform, give the dB values
    of the file again, whatever the angles are; a value below -400 comes
    back as -400.  On real numbers the values are equal; the rounding of
    floating-point arithmetic is outside the model. *)
Theorem db_round_trip (la lb : list R) :
  length la = length lb ->
  sparam_db (_to_complex (Fin <$> la) (Fin <$> lb) "DB")
  = (fun a => Fin (Rmax a (-400))) <$> la.
Proof.
  intros Hlen.
  rewrite (to_complex_finite "DB" _ la lb to_complex_at_DB).
  apply (sparam_db_zip _ (fun a => Rmax a (-400))); [| assumption].
  intros a b. rewrite sparam_db_at, hypot_polar.
  rewrite Rabs_pos_eq by (left; apply exp_pos).
  by rewrite db_floor.
Qed.

Lemma db_round_trip_witness :
  sparam_db (_to_complex (Fin <$> [-3; -500]) (Fin <$> [45; 90]) "DB")
  = (fun a => Fin (Rmax a (-400))) <$> [-3; -500].
Proof. apply (db_round_trip [-3; -500] [45; 90]). reflexivity. Defined.

(** X11.  Under MA the magnitude in dB of a decoded value is that of the
    first value of the pair, without its sign and not below the floor: it
    does not depend on the angle. *)
Theorem ma_magnitude_db (la lb : list R) :
  length la = length lb ->
  sparam_db (_to_complex (Fin <$> la) (Fin <$> lb) "MA")
  = (fun a => Fin (20 * log10 (Rmax (Rabs a) 1e-20))) <$> la.
Proof.
  intros Hlen.
  rewrite (to_complex_finite "MA" _ la lb to_complex_at_MA).
  apply (sparam_db_zip _ (fun a => 20 * log10 (Rmax (Rabs a) 1e-20)));
    [| assumption].
  intros a b. by rewrite sparam_db_at, hypot_polar.
Qed.

Lemma ma_magnitude_db_witness :
  sparam_db (_to_complex (Fin <$> [2; -2]) (Fin <$> [0; 30]) "MA")
  = (fun a => Fin (20 * log10 (Rmax (Rabs a) 1e-20))) <$> [2; -2].
Proof. apply (ma_magnitude_db [2; -2] [0; 30]). reflexivity. Defined.

End Magnitude.

(** ** X12 and X13: the header and the numeric stream *)

Lemma with_tokens_nil (st : scan_state) : with_tokens st [] = st.
Proof. unfold with_tokens. simpl. apply scan_state_eta. Qed.

Lemma with_tokens_app (st : scan_state) (t1 t2 : list string) :
  with_tokens (with_tokens st t1) t2 = with_tokens st (t1 ++ t2).
Proof.
  unfold with_tokens. cbn [data_rows cur_unit_scale cur_fmt cur_z0].
  by rewrite append_floats_app.
Qed.

(** A line that is not a header line adds its words to the stream and
    leaves the rest of the state as it is. *)
Lemma scan_line_tokens (st : scan_state) (line : string) :
  is_header line = false ->
  scan_line st line = Ok (with_tokens st (line_tokens line)).
Proof.
  unfold is_header, scan_line, line_tokens. intros ->.
  destruct (String.eqb (PyStr.strip line) "");
    [by rewrite with_tokens_nil |].
  destruct (PyStr.startswith (PyStr.strip line) "!");
    [by rewrite with_tokens_nil |].
  destruct (PyStr.contains "!" (PyStr.strip line)).
  - destruct (PyStr.split (PyStr.strip line) "!") as [|first rest] eqn:Hs.
    { exfalso. exact (split_go_nonempty _ _ _ Hs). }
    cbn [head of_option mbind result_bind].
    destruct (String.eqb_spec (PyStr.strip first) "") as [->|_];
      [by rewrite with_tokens_nil | reflexivity].
  - cbn [mbind result_bind].
    destruct (String.eqb_spec (PyStr.strip line) "") as [->|_];
      [by rewrite with_tokens_nil | reflexivity].
Qed.

Lemma line_tokens_header (line : string) :
  is_header line = true -> line_tokens line = [].
Proof.
  unfold is_header, line_tokens. intros ->.
  by destruct (String.eqb (PyStr.strip line) ""),
              (PyStr.startswith (PyStr.strip line) "!").
Qed.

(** The stream of the loop is that of the words of all the lines. *)
Lemma scan_stream (text : list string) (st st' : scan_state) :
  for_each text scan_line st = Ok st' ->
  data_rows st'
  = append_floats (data_rows st) (concat (line_tokens <$> text)).
Proof.
  revert st. induction text as [|line text IH]; intros st; simpl.
  - by intros [= <-].
  - intros Hrun. apply bind_Ok in Hrun as (st1 & H1 & Hrest).
    rewrite (IH _ Hrest), append_floats_app. f_equal.
    destruct (is_header line) eqn:Hh.
    + destruct (scan_line_header st line Hh) as (z & _ & Hs).
      rewrite Hs in H1. injection H1 as <-.
      by rewrite (line_tokens_header _ Hh).
    + rewrite (scan_line_tokens st line Hh) in H1. by injection H1 as <-.
Qed.

(** X12.  A decode is decided by three things only: the port count of the
    name, the tokens of the last header line, and the numbers among the
    words of the other lines, in the order of the file.  Where the header
    lines stand among the other lines is without effect, and so is the
    way the numbers are spread over the lines. *)
Theorem decode_normal_form (name : string) (text : list string) :
  exists z,
    _parse_z0 (governing_parts text) = Ok z /\
    read_touchstone name text
    = assemble (_infer_nports name)
               (_unit_scale (governing_parts text))
               (_parse_format (governing_parts text)) z
               (omap py_float (concat (line_tokens <$> text))).
Proof.
  destruct (read_touchstone_assemble name text) as (st & Hst & ->).
  destruct (scan_governing text st Hst) as (-> & -> & Hz).
  exists (cur_z0 st). split; [assumption |].
  rewrite (scan_stream text scan_init st Hst).
  by rewrite append_floats_omap.
Qed.

(** X13.  A header line may change places with a line that is not a header
    line: the header of a file may stand after the data that it
    describes. *)
Theorem header_position_free (name : string) (before after : list string)
        (h l : string) :
  is_header h = true ->
  is_header l = false ->
  read_touchstone name (before ++ h :: l :: after)
  = read_touchstone name (before ++ l :: h :: after).
Proof.
  intros Hh Hl.
  apply (read_touchstone_replace name before after [h; l] [l; h]).
  intros st. cbn [for_each].
  destruct (scan_line_header st h Hh) as (z & Hz & ->).
  rewrite (scan_line_tokens st l Hl). cbn [mbind result_bind].
  destruct (scan_line_header (with_tokens st (line_tokens l)) h Hh)
    as (z' & Hz' & ->).
  rewrite scan_line_tokens by assumption. cbn [mbind result_bind].
  rewrite Hz in Hz'. injection Hz' as <-. reflexivity.
Qed.

Lemma header_position_free_witness :
  read_touchstone "x.s1p" ["# KHZ S MA R 75"; "1 2 3"]
  = read_touchstone "x.s1p" ["1 2 3"; "# KHZ S MA R 75"].
Proof.
  apply (header_position_free "x.s1p" [] [] "# KHZ S MA R 75" "1 2 3");
    reflexivity.
Defined.

(** * The plot of the window *)

(** ** Integer indices *)

Lemma axis_index_lt (n : nat) (i : Z) (k : nat) :
  Np.axis_index n i = Some k -> k < n.
Proof.
  unfold Np.axis_index. intros H.
  destruct ((0 <=? i)%Z && (i <? Z.of_nat n)%Z) eqn:H1;
    [injection H as <-; lia |].
  destruct ((- Z.of_nat n <=? i)%Z && (i <? 0)%Z) eqn:H2;
    [injection H as <-; lia | discriminate H].
Qed.

Lemma axis_index_in (n : nat) (i : Z) :
  (- Z.of_nat n <= i < Z.of_nat n)%Z ->
  Np.axis_index n i = Some (Z.to_nat (i mod Z.of_nat n)).
Proof.
  intros Hi. unfold Np.axis_index.
  destruct (Z_lt_ge_dec i 0) as [Hneg|Hpos].
  - assert ((0 <=? i)%Z && (i <? Z.of_nat n)%Z = false) as -> by lia.
    assert ((- Z.of_nat n <=? i)%Z && (i <? 0)%Z = true) as -> by lia.
    do 2 f_equal. apply Z.mod_unique with (-1)%Z; lia.
  - assert ((0 <=? i)%Z && (i <? Z.of_nat n)%Z = true) as -> by lia.
    do 2 f_equal. symmetry. apply Z.mod_small. lia.
Qed.

Lemma axis_index_out (n : nat) (i : Z) :
  ~ (- Z.of_nat n <= i < Z.of_nat n)%Z -> Np.axis_index n i = None.
Proof.
  intros Hi. unfold Np.axis_index.
  assert ((0 <=? i)%Z && (i <? Z.of_nat n)%Z = false) as -> by lia.
  by assert ((- Z.of_nat n <=? i)%Z && (i <? 0)%Z = false) as -> by lia.
Qed.

Section Entries.

Context {A : Type}.

Lemma item2_in (P : nat) (m : list (list A)) (i j : Z) :
  length m = P -> Forall (fun row => length row = P) m ->
  (- Z.of_nat P <= i < Z.of_nat P)%Z ->
  (- Z.of_nat P <= j < Z.of_nat P)%Z ->
  Np.item2 m i j
  = entry2 m (Z.to_nat (i mod Z.of_nat P)) (Z.to_nat (j mod Z.of_nat P)) /\
  is_Some (Np.item2 m i j).
Proof.
  intros Hm Hrows Hi Hj. unfold Np.item2, entry2.
  rewrite Hm, (axis_index_in P i Hi).
  cbn [mbind option_bind].
  assert (Z.to_nat (i mod Z.of_nat P) < P) as Hk.
  { pose proof (Z.mod_pos_bound i (Z.of_nat P)). lia. }
  assert (Z.to_nat (j mod Z.of_nat P) < P) as Hl.
  { pose proof (Z.mod_pos_bound j (Z.of_nat P)). lia. }
  destruct (m !! Z.to_nat (i mod Z.of_nat P)) as [row|] eqn:Hrow.
  2: { apply lookup_ge_None in Hrow. lia. }
  cbn [mbind option_bind].
  assert (length row = P) as Hlen.
  { rewrite Forall_lookup in Hrows. eauto. }
  rewrite Hlen, (axis_index_in P j Hj). cbn [mbind option_bind].
  split; [reflexivity |]. apply lookup_lt_is_Some. lia.
Qed.

Lemma item2_out (P : nat) (m : list (list A)) (i j : Z) :
  length m = P -> Forall (fun row => length row = P) m ->
  ~ ((- Z.of_nat P <= i < Z.of_nat P)%Z /\
     (- Z.of_nat P <= j < Z.of_nat P)%Z) ->
  Np.item2 m i j = None.
Proof.
  intros Hm Hrows Hout. unfold Np.item2. rewrite Hm.
  destruct (Np.axis_index P i) as [k|] eqn:Hi; [| reflexivity].
  cbn [mbind option_bind].
  destruct (m !! k) as [row|] eqn:Hrow; [| reflexivity].
  cbn [mbind option_bind].
  assert (length row = P) as ->.
  { rewrite Forall_lookup in Hrows. eauto. }
  destruct (decide (- Z.of_nat P <= i < Z.of_nat P)%Z) as [Hin|Hni].
  - rewrite axis_index_out; [reflexivity | tauto].
  - by rewrite axis_index_out in Hi.
Qed.

(** [t[:, i, j]] on an array of shape [(N, P, P)] *)
Lemma entries_in (N P : nat) (t : list (list (list A))) (i j : Z) :
  shape3 N P P t ->
  (- Z.of_nat P <= i < Z.of_nat P)%Z ->
  (- Z.of_nat P <= j < Z.of_nat P)%Z ->
  exists col,
    Np.entries t i j = Ok col /\
    length col = N /\
    (forall n, n < N ->
       col !! n = entry t n (Z.to_nat (i mod Z.of_nat P))
                            (Z.to_nat (j mod Z.of_nat P))).
Proof.
  intros [HN Hsh] Hi Hj. unfold Np.entries.
  destruct (mapM (fun m : list (list A) => Np.item2 m i j) t)
    as [col|] eqn:Hm.
  - exists col. split; [reflexivity |]. apply mapM_Some_1 in Hm.
    split; [apply Forall2_length in Hm; lia |].
    intros n Hn. unfold entry.
    destruct (t !! n) as [m|] eqn:Htn.
    2: { apply lookup_ge_None in Htn. lia. }
    destruct (Forall2_lookup_l _ _ _ _ _ Hm Htn) as (y & Hy & Hitem).
    rewrite Forall_lookup in Hsh. destruct (Hsh _ _ Htn) as [HP HQ].
    destruct (item2_in P m i j HP HQ Hi Hj) as [Heq _].
    cbn [mbind option_bind]. congruence.
  - apply mapM_None_1 in Hm. apply Exists_exists in Hm.
    destruct Hm as (m & Hin & Hnone).
    rewrite Forall_forall in Hsh. destruct (Hsh _ Hin) as [HP HQ].
    destruct (item2_in P m i j HP HQ Hi Hj) as [_ [y Hy]]. congruence.
Qed.

Lemma entries_out (N P : nat) (t : list (list (list A))) (i j : Z) :
  shape3 N P P t -> 0 < N ->
  ~ ((- Z.of_nat P <= i < Z.of_nat P)%Z /\
     (- Z.of_nat P <= j < Z.of_nat P)%Z) ->
  Np.entries t i j = Err LibraryError.
Proof.
  intros [HN Hsh] HN0 Hout. unfold Np.entries.
  destruct t as [|m t]; [simpl in HN; lia |].
  apply Forall_cons in Hsh as [[HP HQ] _].
  cbn [mapM]. by rewrite (item2_out P m i j HP HQ Hout).
Qed.

End Entries.

(** ** The dataset of a decode has points, and a shape *)

Lemma read_touchstone_shape (name : string) (text : list string)
      (d : TouchstoneData) :
  read_touchstone name text = Ok d ->
  (1 <= nports d)%Z /\
  0 < length (freq_hz d) /\
  shape3 (length (freq_hz d)) (Z.to_nat (nports d)) (Z.to_nat (nports d))
         (s d).
Proof.
  intros Hread.
  destruct (read_touchstone_assemble name text) as (st & Hst & Heq).
  rewrite Heq in Hread.
  destruct (Z_le_gt_dec (_infer_nports name) 0) as [Hle|Hgt].
  { rewrite assemble_no_ports in Hread by assumption. discriminate. }
  set (P := _infer_nports name) in *.
  destruct (le_lt_dec (1 + 2 * (Z.to_nat P * Z.to_nat P))
                      (length (data_rows st))) as [Hw|Hw].
  - destruct (assemble_points P (cur_unit_scale st) (cur_fmt st) (cur_z0 st)
                (data_rows st)) as (d' & Hd & HP & _ & _ & HN & Hsh & _);
      [lia | assumption |].
    rewrite Hd in Hread. injection Hread as <-.
    rewrite HP, HN. split; [lia |]. split; [| assumption].
    apply Nat.div_str_pos. lia.
  - rewrite assemble_short in Hread by (assumption || lia). discriminate.
Qed.

(** ** X14: the series of one S-parameter *)

(** X14.  On the dataset of a decode with [P] ports, [_extract_db] returns
    a series for the indices [i] and [j] from [-P] to [P - 1], a negative
    index counting from the end: the frequencies divided by [1e9], and the
    magnitude in dB of the entry [(i, j)] of every point, one value for
    each frequency.  For every other index it raises. *)
Theorem extract_db_decoded (name : string) (text : list string)
        (d : TouchstoneData) (i j : Z) :
  read_touchstone name text = Ok d ->
  let P := nports d in
  ((- P <= i < P)%Z /\ (- P <= j < P)%Z ->
   exists col,
     _extract_db d i j
     = Ok ((fun x => fdiv_const x 1e9) <$> freq_hz d, sparam_db col) /\
     length (sparam_db col) = length (freq_hz d) /\
     (forall n, n < length (freq_hz d) ->
        col !! n = entry (s d) n (Z.to_nat (i mod P)) (Z.to_nat (j mod P)))) /\
  (~ ((- P <= i < P)%Z /\ (- P <= j < P)%Z) ->
   _extract_db d i j = Err LibraryError).
Proof.
  intros Hread P.
  destruct (read_touchstone_shape name text d Hread) as (HP & HN & Hsh).
  fold P in HP, Hsh.
  assert (Z.of_nat (Z.to_nat P) = P) as HPn by lia.
  split.
  - intros [Hi Hj].
    destruct (entries_in _ _ _ i j Hsh) as (col & Hcol & Hlen & Hent);
      [lia | lia |].
    exists col. unfold _extract_db. rewrite Hcol. split; [reflexivity |].
    split.
    + unfold sparam_db. by rewrite !length_fmap.
    + intros n Hn. rewrite <- HPn at 1 2. by apply Hent.
  - intros Hout. unfold _extract_db.
    rewrite (entries_out _ _ _ i j Hsh HN); [reflexivity |]. lia.
Qed.

Lemma extract_db_decoded_witness :
  exists d,
    read_touchstone "x.s1p" ["1 0.5 0.25"] = Ok d /\
    _extract_db d 1 0 = Err LibraryError.
Proof.
  eexists. split; [run_decoder; reflexivity |].
  refine (proj2 (extract_db_decoded "x.s1p" ["1 0.5 0.25"] _ 1 0 _) _).
  - run_decoder. reflexivity.
  - simpl. lia.
Defined.

(** ** Smoothing *)

Lemma smooth_window_odd (win : Z) :
  (3 <= smooth_window win)%Z /\
  Z.odd (smooth_window win) = true /\
  (win <= smooth_window win <= Z.max 3 win + 1)%Z.
Proof.
  unfold smooth_window. rewrite Zodd_mod.
  pose proof (Z.mod_pos_bound (Z.max 3 win) 2).
  destruct (Z.eqb_spec (Z.max 3 win mod 2) 0) as [He|Hne].
  - split; [lia |]. split; [| lia].
    rewrite Z.add_mod, He by lia. reflexivity.
  - split; [lia |]. split; [| lia].
    apply Z.eqb_eq. lia.
Qed.

Lemma smooth_window_half (win : Z) :
  Z.to_nat (smooth_window win)
  = 2 * ((Z.to_nat (smooth_window win) - 1) / 2) + 1.
Proof.
  destruct (smooth_window_odd win) as (H3 & Hodd & _).
  rewrite Zodd_mod in Hodd. apply Z.eqb_eq in Hodd.
  set (w := smooth_window win) in *.
  assert (w = 2 * (w / 2) + 1)%Z as Hw.
  { pose proof (Z.div_mod w 2). lia. }
  assert (Z.to_nat w - 1 = (Z.to_nat (w / 2)) * 2) as Hn by lia.
  rewrite Hn, Nat.div_mul by lia. lia.
Qed.

Lemma smooth_unfold (y : list pyfloat) (win : Z) :
  _smooth y win
  = if (Z.of_nat (length y) <? smooth_window win)%Z then Ok y
    else Np.convolve_same y
           (replicate (Z.to_nat (smooth_window win))
                      (Fin (1 / IZR (smooth_window win)))).
Proof.
  unfold _smooth, Np.ones. fold (smooth_window win).
  by rewrite fmap_replicate.
Qed.

Lemma convolve_same_long (a v : list pyfloat) :
  0 < length v <= length a ->
  Np.convolve_same a v
  = Ok ((fun i : nat => Np.conv_at a v (i + (length v - 1) / 2))
        <$> seq 0 (length a)).
Proof.
  intros Hlen. unfold Np.convolve_same.
  assert ((length a <? length v)%nat = false) as ->
      by (apply Nat.ltb_ge; lia).
  assert ((length a =? 0)%nat = false) as -> by (apply Nat.eqb_neq; lia).
  by assert ((length v =? 0)%nat = false) as -> by (apply Nat.eqb_neq; lia).
Qed.

(** X15.  [_smooth] never raises and returns one value for each value of
    the series; a series shorter than the window is returned as it is.
    The window is the least odd number that is at least 3 and at least
    [win]. *)
Theorem smooth_length (y : list pyfloat) (win : Z) :
  let w := smooth_window win in
  exists y',
    _smooth y win = Ok y' /\
    length y' = length y /\
    ((Z.of_nat (length y) < w)%Z -> y' = y) /\
    (3 <= w)%Z /\ Z.odd w = true /\ (win <= w <= Z.max 3 win + 1)%Z.
Proof.
  intros w. pose proof (smooth_window_odd win) as Hw. fold w in Hw.
  rewrite smooth_unfold. fold w.
  destruct (Z.ltb_spec (Z.of_nat (length y)) w) as [Hlt|Hge].
  - exists y. repeat split; tauto || lia.
  - rewrite convolve_same_long by (rewrite length_replicate; lia).
    eexists. split; [reflexivity |].
    split; [by rewrite length_fmap, length_seq |].
    split; [lia | exact Hw].
Qed.

(** *** The values of the smoothed series *)

Lemma omap_seq_range {A : Type} (f : nat -> option A) (g : nat -> A)
      (lo hi n : nat) :
  (forall t, t < n ->
     f t = if (lo <=? t)%nat && (t <? hi)%nat then Some (g t) else None) ->
  omap f (seq 0 n) = g <$> seq lo (min hi n - lo).
Proof.
  induction n as [|n IH]; intros Hf.
  - replace (min hi 0 - lo) with 0 by lia. reflexivity.
  - rewrite seq_S, omap_app, IH by (intros t Ht; apply Hf; lia).
    simpl. rewrite (Hf n) by lia.
    destruct (Nat.leb_spec lo n) as [Hlo|Hlo];
      [destruct (Nat.ltb_spec n hi) as [Hhi|Hhi] |]; cbn [andb].
    + replace (min hi (S n) - lo) with (S (min hi n - lo)) by lia.
      rewrite seq_S, fmap_app. simpl. do 3 f_equal. lia.
    + rewrite app_nil_r. do 2 f_equal. lia.
    + rewrite app_nil_r. do 2 f_equal. lia.
Qed.

Lemma nth_seq_take (ys : list R) (lo len : nat) :
  lo + len <= length ys ->
  (fun t : nat => nth t ys 0%R) <$> seq lo len = take len (drop lo ys).
Proof.
  revert lo. induction len as [|len IH]; intros lo Hlen; [reflexivity |].
  cbn [seq fmap list_fmap].
  destruct (ys !! lo) as [x|] eqn:Hx.
  2: { apply lookup_ge_None in Hx. lia. }
  rewrite (drop_S _ _ _ Hx). cbn [take].
  rewrite (nth_lookup_Some _ _ _ _ Hx). f_equal. apply IH. lia.
Qed.

Lemma take_min_length {A : Type} (k : nat) (l : list A) :
  take (min k (length l)) l = take k l.
Proof.
  destruct (le_lt_dec k (length l)) as [H|H].
  - by rewrite Nat.min_l.
  - rewrite Nat.min_r, !take_ge by lia. reflexivity.
Qed.

Section Sums.

Local Open Scope R_scope.

Lemma foldl_fadd_fin (acc : R) (l : list R) :
  foldl fadd (Fin acc) (Fin <$> l) = Fin (acc + Rsum l).
Proof.
  revert acc. induction l as [|x l IH]; intros acc; simpl.
  - f_equal. lra.
  - rewrite IH. f_equal. unfold Rsum. simpl. lra.
Qed.

Lemma fsum_fin (l : list R) : Np.fsum (Fin <$> l) = Fin (Rsum l).
Proof. unfold Np.fsum. rewrite foldl_fadd_fin. f_equal. lra. Qed.

Lemma Rsum_scale (c : R) (l : list R) :
  Rsum ((fun x => x * c) <$> l) = Rsum l * c.
Proof.
  unfold Rsum. induction l as [|x l IH]; [simpl; lra |].
  rewrite fmap_cons. cbn [foldr]. rewrite IH. lra.
Qed.

Lemma Rsum_replicate (m : nat) (c : R) : Rsum (replicate m c) = INR m * c.
Proof.
  unfold Rsum. induction m as [|m IH]; [simpl; lra |].
  cbn [replicate foldr]. rewrite IH, S_INR. lra.
Qed.

End Sums.

(** One value of the convolution of a series of real numbers with a
    constant kernel of odd length *)
Lemma conv_at_window (ys : list R) (c : R) (h i : nat) :
  i < length ys ->
  Np.conv_at (Fin <$> ys) (replicate (2 * h + 1) (Fin c)) (i + h)
  = Fin (Rsum (window ys i h) * c).
Proof.
  intros Hi. unfold Np.conv_at. rewrite length_fmap.
  rewrite (omap_seq_range _ (fun t => Fin (nth t ys 0%R * c))
             (i - h) (i + h + 1) (length ys)).
  - replace ((fun t : nat => Fin (nth t ys 0%R * c)) <$>
             seq (i - h) (min (i + h + 1) (length ys) - (i - h)))
      with (Fin <$> ((fun x => x * c)%R <$>
              ((fun t : nat => nth t ys 0%R) <$>
               seq (i - h) (min (i + h + 1) (length ys) - (i - h))))).
    2: { rewrite <- !list_fmap_compose. reflexivity. }
    rewrite nth_seq_take by lia.
    rewrite fsum_fin, Rsum_scale. do 2 f_equal. unfold window.
    rewrite <- (take_min_length (i + h + 1 - (i - h))).
    rewrite length_drop. do 2 f_equal. lia.
  - intros t Ht. rewrite list_lookup_fmap.
    destruct (ys !! t) as [x|] eqn:Hx.
    2: { apply lookup_ge_None in Hx. lia. }
    rewrite (nth_lookup_Some _ _ _ _ Hx). cbn [fmap option_fmap option_map].
    destruct (Nat.leb_spec t (i + h)) as [Hle|Hgt].
    + destruct (Nat.leb_spec (i - h) t) as [Hlo|Hlo].
      * assert ((t <? i + h + 1)%nat = true) as ->
            by (apply Nat.ltb_lt; lia).
        rewrite lookup_replicate_2 by lia. reflexivity.
      * assert (replicate (2 * h + 1) (Fin c) !! (i + h - t) = None) as ->
            by (apply lookup_replicate_None; lia).
        reflexivity.
    + assert ((t <? i + h + 1)%nat = false) as ->
          by (apply Nat.ltb_ge; lia).
      by rewrite andb_false_r.
Qed.

(** The smoothed series of a series of real numbers that is not shorter
    than the window *)
Lemma smooth_finite (ys : list R) (win : Z) :
  let w := smooth_window win in
  let h := (Z.to_nat w - 1) / 2 in
  (w <= Z.of_nat (length ys))%Z ->
  _smooth (Fin <$> ys) win
  = Ok ((fun i : nat => Fin (Rsum (window ys i h) / IZR w))
        <$> seq 0 (length ys)).
Proof.
  intros w h Hlen.
  destruct (smooth_window_odd win) as (H3 & _). fold w in H3.
  pose proof (smooth_window_half win) as Hw. fold w in Hw. fold h in Hw.
  rewrite smooth_unfold. fold w. rewrite length_fmap.
  assert ((Z.of_nat (length ys) <? w)%Z = false) as -> by lia.
  rewrite convolve_same_long by (rewrite length_replicate, length_fmap; lia).
  rewrite length_replicate, length_fmap. fold h. f_equal.
  apply Forall_fmap_ext_1, Forall_forall. intros i Hin.
  apply elem_of_seq in Hin. rewrite Hw.
  rewrite conv_at_window by lia. f_equal.
  assert (IZR w <> 0%R) by (apply not_0_IZR; lia). field. assumption.
Qed.

(** X16.  On a series of real numbers that is not shorter than the window
    [w = 2 h + 1], the smoothed value at a position is the sum of the
    values at most [h] positions away, divided by [w]: next to an end of
    the series, where the window reaches beyond it, the missing values
    count as zero and the divisor stays the same. *)
Theorem smooth_window_mean (ys : list R) (win : Z) :
  let w := smooth_window win in
  let h := (Z.to_nat w - 1) / 2 in
  (w <= Z.of_nat (length ys))%Z ->
  exists out,
    _smooth (Fin <$> ys) win = Ok out /\
    length out = length ys /\
    (forall i, i < length ys ->
       out !! i = Some (Fin (Rsum (window ys i h) / IZR w))) /\
    (forall i, h <= i -> i + h < length ys ->
       length (window ys i h) = Z.to_nat w).
Proof.
  intros w h Hlen. eexists. split; [by apply smooth_finite |].
  split; [by rewrite length_fmap, length_seq |]. split.
  - intros i Hi. rewrite list_lookup_fmap, lookup_seq_lt by lia.
    reflexivity.
  - intros i Hlo Hhi. unfold window.
    rewrite length_take, length_drop.
    pose proof (smooth_window_half win) as Hw. fold w in Hw. fold h in Hw.
    lia.
Qed.

Lemma smooth_window_mean_witness :
  exists out,
    _smooth (Fin <$> [1; 2; 3; 4; 5; 6; 7; 8]%R) 7 = Ok out /\
    out !! 0 = Some (Fin (Rsum [1; 2; 3; 4] / 7)%R).
Proof.
  destruct (smooth_window_mean [1; 2; 3; 4; 5; 6; 7; 8]%R 7)
    as (out & Hout & _ & Hval & _); [by vm_compute |].
  exists out. split; [exact Hout |]. apply (Hval 0). simpl. lia.
Defined.

(** X17.  Smoothing does not keep a flat trace flat: on a constant series
    of [n >= w] values [c], the smoothed value is [c] only at the
    positions at least [h] away from both ends; the value at a position
    nearer to an end is [c] times the part [k / w] of the window that lies
    within the series, and the first and the last values are
    [c (h + 1) / w]. *)
Theorem smooth_flat_trace (c : R) (n : nat) (win : Z) :
  let w := smooth_window win in
  let h := (Z.to_nat w - 1) / 2 in
  (w <= Z.of_nat n)%Z ->
  exists out,
    _smooth (replicate n (Fin c)) win = Ok out /\
    (forall i, i < n ->
       out !! i
       = Some (Fin (INR (min (i + h + 1) n - (i - h)) * c / IZR w))) /\
    (forall i, h <= i -> i + h < n -> out !! i = Some (Fin c)) /\
    out !! 0 = Some (Fin (INR (h + 1) * c / IZR w)) /\
    out !! (n - 1) = Some (Fin (INR (h + 1) * c / IZR w)).
Proof.
  intros w h Hlen.
  destruct (smooth_window_odd win) as (H3 & _). fold w in H3.
  pose proof (smooth_window_half win) as Hw. fold w in Hw. fold h in Hw.
  assert (IZR w <> 0%R) as Hw0 by (apply not_0_IZR; lia).
  assert (IZR w = INR (2 * h + 1)) as HwR.
  { rewrite INR_IZR_INZ. f_equal. lia. }
  pose proof (smooth_finite (replicate n c) win) as Hs.
  rewrite fmap_replicate, length_replicate in Hs.
  fold w in Hs. fold h in Hs. specialize (Hs Hlen).
  eexists. split; [exact Hs |].
  assert (forall i, i < n ->
            ((fun i : nat => Fin (Rsum (window (replicate n c) i h) / IZR w))
             <$> seq 0 n) !! i
            = Some (Fin (INR (min (i + h + 1) n - (i - h)) * c / IZR w)))
    as Hval.
  { intros i Hi. rewrite list_lookup_fmap, lookup_seq_lt by lia.
    cbn [fmap option_fmap option_map Nat.add]. do 3 f_equal.
    unfold window. rewrite drop_replicate, take_replicate, Rsum_replicate.
    do 2 f_equal. lia. }
  split; [exact Hval |]. split; [| split].
  - intros i Hlo Hhi. rewrite Hval by lia. do 2 f_equal.
    replace (min (i + h + 1) n - (i - h)) with (2 * h + 1) by lia.
    rewrite HwR. field. rewrite <- HwR. assumption.
  - rewrite Hval by lia.
    replace (min (0 + h + 1) n - (0 - h)) with (h + 1) by lia.
    reflexivity.
  - rewrite Hval by lia.
    replace (min (n - 1 + h + 1) n - (n - 1 - h)) with (h + 1) by lia.
    reflexivity.
Qed.

Lemma smooth_flat_trace_witness :
  exists out,
    _smooth (replicate 10 (Fin (-20))) 7 = Ok out /\
    out !! 0 = Some (Fin (INR 4 * -20 / 7)%R) /\
    out !! 5 = Some (Fin (-20)).
Proof.
  destruct (smooth_flat_trace (-20) 10 7)
    as (out & Hout & _ & Hmid & Hfirst & _); [by vm_compute |].
  exists out. split; [exact Hout |]. split; [exact Hfirst |].
  apply (Hmid 5); simpl; lia.
Defined.

(** ** What [refresh_plot] draws *)

Lemma metric_to_ij_range (metric : string) (P i j : Z) :
  _metric_to_ij metric P = Some (i, j) ->
  (0 <= i < P)%Z /\ (0 <= j < P)%Z /\ (Z.max i j <= 1)%Z.
Proof.
  unfold _metric_to_ij. intros H.
  repeat match type of H with
         | (if ?b then _ else _) = _ => destruct b eqn:?
         end;
    try discriminate H; injection H as <- <-; lia.
Qed.

Lemma smooth_option (b : bool) (y : list pyfloat) :
  exists y',
    (if b then _smooth y 7 else Ok y) = Ok y' /\ length y' = length y.
Proof.
  destruct b; [| eauto]. rewrite smooth_unfold.
  destruct (smooth_window_odd 7) as (H3 & _).
  destruct (Z.ltb_spec (Z.of_nat (length y)) (smooth_window 7)); [eauto |].
  rewrite convolve_same_long by (rewrite length_replicate; lia).
  eexists. split; [reflexivity |]. by rewrite length_fmap, length_seq.
Qed.

Lemma extract_db_in (d : TouchstoneData) (i j : Z) :
  decoded d ->
  (- nports d <= i < nports d)%Z -> (- nports d <= j < nports d)%Z ->
  exists x y,
    _extract_db d i j = Ok (x, y) /\
    length x = length (freq_hz d) /\ length y = length (freq_hz d).
Proof.
  intros (name & text & Hread) Hi Hj.
  destruct (read_touchstone_shape name text d Hread) as (HP & HN & Hsh).
  destruct (entries_in _ _ _ i j Hsh) as (col & Hcol & Hlen & _);
    [lia | lia |].
  unfold _extract_db. rewrite Hcol. do 2 eexists.
  split; [reflexivity |]. unfold sparam_db. rewrite !length_fmap. auto.
Qed.

Lemma extract_db_out (d : TouchstoneData) (i j : Z) :
  decoded d ->
  ~ ((- nports d <= i < nports d)%Z /\ (- nports d <= j < nports d)%Z) ->
  _extract_db d i j = Err LibraryError.
Proof.
  intros (name & text & Hread) Hout.
  destruct (read_touchstone_shape name text d Hread) as (HP & HN & Hsh).
  unfold _extract_db.
  rewrite (entries_out _ _ _ i j Hsh HN); [reflexivity |]. lia.
Qed.

Lemma plot_file_in (self : MainWindow) (file : LoadedFile) (i j : Z)
      (lbl : string) (lines : list line2d) :
  decoded (data file) ->
  (- nports (data file) <= i < nports (data file))%Z ->
  (- nports (data file) <= j < nports (data file))%Z ->
  exists l,
    plot_file self file i j lbl lines = Ok (lines ++ [l])%list /\
    length (xdata l) = length (freq_hz (data file)) /\
    length (ydata l) = length (freq_hz (data file)) /\
    label l = lbl.
Proof.
  intros Hd Hi Hj. unfold plot_file.
  destruct (extract_db_in _ i j Hd Hi Hj) as (x & y & -> & Hx & Hy).
  cbn [mbind result_bind fst snd].
  destruct (smooth_option (chk_smooth self) y) as (y' & -> & Hy').
  cbn [mbind result_bind]. unfold ax_plot.
  assert ((length x =? length y')%nat = true) as ->
      by (apply Nat.eqb_eq; lia).
  eexists. split; [reflexivity |]. simpl. repeat split; lia.
Qed.

Lemma plot_file_out (self : MainWindow) (file : LoadedFile) (i j : Z)
      (lbl : string) (lines : list line2d) :
  decoded (data file) ->
  ~ ((- nports (data file) <= i < nports (data file))%Z /\
     (- nports (data file) <= j < nports (data file))%Z) ->
  plot_file self file i j lbl lines = Err LibraryError.
Proof.
  intros Hd Hout. unfold plot_file.
  by rewrite (extract_db_out _ i j Hd Hout).
Qed.

(** X18.  With a decoded file as the primary one and no file to compare,
    [refresh_plot] never raises, whatever the metric and the smoothing
    are.  When the metric is one that the port count of the file supports,
    the axes are left with one line, labelled with the metric, whose two
    arrays have one value for each frequency of the file; otherwise they
    are left empty and the log has one more message.  The loaded files and
    the controls are as before. *)
Theorem refresh_plot_primary (self : MainWindow) (file : LoadedFile) :
  loaded_primary self = Some file ->
  loaded_compare self = None ->
  decoded (data file) ->
  exists self',
    refresh_plot self = Ok self' /\
    loaded_primary self' = loaded_primary self /\
    loaded_compare self' = loaded_compare self /\
    cmb_plot self' = cmb_plot self /\
    chk_smooth self' = chk_smooth self /\
    match _metric_to_ij (cmb_plot self) (nports (data file)) with
    | Some _ =>
        log self' = log self /\
        exists l,
          ax_lines self' = [l] /\
          length (xdata l) = length (freq_hz (data file)) /\
          length (ydata l) = length (freq_hz (data file)) /\
          label l = "Primary " ++ cmb_plot self
    | None =>
        ax_lines self' = [] /\
        log self'
        = (log self
           ++ [("Unsupported metric selection: " ++ cmb_plot self)%string])%list
    end.
Proof.
  intros Hp Hc Hd. unfold refresh_plot. rewrite Hp, Hc.
  destruct (_metric_to_ij (cmb_plot self) (nports (data file)))
    as [[i j]|] eqn:Hij.
  - apply metric_to_ij_range in Hij as (Hi & Hj & _).
    destruct (plot_file_in self file i j ("Primary " ++ cmb_plot self) []
                Hd) as (l & -> & Hx & Hy & Hl); [lia | lia |].
    cbn [mbind result_bind]. eexists. split; [reflexivity |]. simpl.
    repeat split; eauto.
  - eexists. split; [reflexivity |]. simpl. repeat split.
Qed.

Lemma refresh_plot_primary_witness :
  exists self',
    refresh_plot
      {| loaded_primary :=
           Some {| path := "x.s1p";
                   data := {| freq_hz := [Fin 1];
                              s := [[[Cx (Fin 0.5) (Fin 0.25)]]];
                              nports := 1; fmt := "RI"; z0 := Fin 50 |} |};
         loaded_compare := None;
         cmb_plot := "S21 (Insertion Loss) [dB]";
         chk_smooth := true;
         ax_title := "";
         ax_lines := [];
         log := [] |}
    = Ok self' /\
    ax_lines self' = [].
Proof.
  edestruct (refresh_plot_primary
    {| loaded_primary :=
         Some {| path := "x.s1p";
                 data := {| freq_hz := [Fin 1];
                            s := [[[Cx (Fin 0.5) (Fin 0.25)]]];
                            nports := 1; fmt := "RI"; z0 := Fin 50 |} |};
       loaded_compare := None;
       cmb_plot := "S21 (Insertion Loss) [dB]";
       chk_smooth := true;
       ax_title := "";
       ax_lines := [];
       log := [] |})
    as (self' & Hr & _ & _ & _ & _ & Hlines); [reflexivity | reflexivity | |].
  - exists "x.s1p", ["1 0.5 0.25"]. run_decoder.
    repeat (f_equal; try (simpl; lra)).
  - exists self'. split; [exact Hr |]. exact (proj1 Hlines).
Defined.

(** X19.  With a second decoded file to compare, the overlay is drawn at
    the indices that the metric has for the primary file.  [refresh_plot]
    then leaves two lines on the axes when the compared file has these
    indices, and raises when it has not: a file of one port that is
    compared with a file of more ports, under any metric but S11, makes
    every refresh raise. *)
Theorem refresh_plot_overlay (self : MainWindow) (primary compare : LoadedFile)
        (i j : Z) :
  loaded_primary self = Some primary ->
  loaded_compare self = Some compare ->
  decoded (data primary) ->
  decoded (data compare) ->
  _metric_to_ij (cmb_plot self) (nports (data primary)) = Some (i, j) ->
  ((Z.max i j < nports (data compare))%Z ->
   exists self' l1 l2,
     refresh_plot self = Ok self' /\
     ax_lines self' = [l1; l2] /\
     length (xdata l1) = length (freq_hz (data primary)) /\
     length (ydata l1) = length (freq_hz (data primary)) /\
     length (xdata l2) = length (freq_hz (data compare)) /\
     length (ydata l2) = length (freq_hz (data compare)) /\
     label l1 = "Primary " ++ cmb_plot self /\
     label l2 = "Compare " ++ cmb_plot self) /\
  ((nports (data compare) <= Z.max i j)%Z ->
   refresh_plot self = Err LibraryError) /\
  ((nports (data compare) = 1)%Z -> (i, j) <> (0, 0)%Z ->
   refresh_plot self = Err LibraryError).
Proof.
  intros Hp Hc Hd1 Hd2 Hij.
  pose proof (metric_to_ij_range _ _ _ _ Hij) as (Hi & Hj & _).
  assert ((nports (data compare) <= Z.max i j)%Z ->
          refresh_plot self = Err LibraryError) as Hraise.
  { intros Hle. unfold refresh_plot. rewrite Hp, Hc, Hij.
    destruct (plot_file_in self primary i j ("Primary " ++ cmb_plot self) []
                Hd1) as (l1 & -> & _); [lia | lia |].
    cbn [mbind result_bind].
    rewrite plot_file_out; [reflexivity | assumption | lia]. }
  split; [| split; [exact Hraise |]].
  - intros Hlt. unfold refresh_plot. rewrite Hp, Hc, Hij.
    destruct (plot_file_in self primary i j ("Primary " ++ cmb_plot self) []
                Hd1) as (l1 & -> & Hx1 & Hy1 & Hl1); [lia | lia |].
    cbn [mbind result_bind].
    destruct (plot_file_in self compare i j ("Compare " ++ cmb_plot self)
                ([] ++ [l1]) Hd2) as (l2 & -> & Hx2 & Hy2 & Hl2);
      [lia | lia |].
    cbn [mbind result_bind]. eexists. exists l1, l2.
    split; [reflexivity |]. simpl. repeat split; assumption.
  - intros H1 Hne. apply Hraise.
    destruct (Z.eq_dec i 0%Z) as [->|Hi0]; [| lia].
    destruct (Z.eq_dec j 0%Z) as [->|Hj0]; [congruence | lia].
Qed.

Lemma refresh_plot_overlay_witness :
  refresh_plot
    {| loaded_primary :=
         Some {| path := "a.s2p";
                 data := {| freq_hz := [Fin 1];
                            s := [[[Cx (Fin 1) (Fin 0); Cx (Fin 0) (Fin 0)];
                                   [Cx (Fin 0) (Fin 0); Cx (Fin 1) (Fin 0)]]];
                            nports := 2; fmt := "RI"; z0 := Fin 50 |} |};
       loaded_compare :=
         Some {| path := "b.s1p";
                 data := {| freq_hz := [Fin 1];
                            s := [[[Cx (Fin 1) (Fin 0)]]];
                            nports := 1; fmt := "RI"; z0 := Fin 50 |} |};
       cmb_plot := "S21 (Insertion Loss) [dB]";
       chk_smooth := false;
       ax_title := "";
       ax_lines := [];
       log := [] |}
  = Err LibraryError.
Proof.
  match goal with
  | |- refresh_plot ?w = _ =>
      refine (proj1 (proj2 (refresh_plot_overlay w _ _ 1 0
                              eq_refl eq_refl _ _ eq_refl)) _)
  end.
  - exists "a.s2p", ["1 1 0 0 0 0 0 1 0"]. run_decoder.
    repeat (f_equal; try (simpl; lra)).
  - exists "b.s1p", ["1 1 0"]. run_decoder.
    repeat (f_equal; try (simpl; lra)).
  - simpl. lia.
Defined.
